(** * GTFS-RT pipeline: the fetch / decode / validate / retry cycle

    A shallow embedding of [src/api_handler/fetch_data.py] and the properties
    of [fetch_gtfs_rt_data] that the design document states.

    The Python function talks to three libraries: [requests] (one HTTP GET
    per attempt), the protobuf bindings [gtfs_realtime_pb2] (decoding and
    field access) and [pydantic] (schema validation).  The HTTP client and
    the decoder are taken as parameters of the development; field access and
    validation are modelled by what the bindings and the schema classes of
    the source do on the values the function hands to them. *)

From Stdlib Require Import ZArith List String Ascii Bool Lia PrimFloat.
From Stdlib.Strings Require Import Byte.
Import ListNotations.

Local Open Scope Z_scope.
Local Open Scope string_scope.

(** ** Python exceptions

    The [except] clauses of [fetch_gtfs_rt_data] select a handler by the class
    of the exception, in textual order, so the class hierarchy is part of the
    program's meaning.  The classes below are the ones the function names or
    can meet:

    - [RequestException] (an [IOError]) is the root of the HTTP client's
      errors; [HTTPError], [ConnectionError] and [Timeout] derive from it;
    - [InvalidURL] derives from both [RequestException] and [ValueError];
    - [DecodeError] derives from the protobuf [Error], itself an [Exception];
    - [ValidationError] derives from [ValueError]. *)
Module exceptions.

Inductive exc_class : Type :=
| Exception
| ValueError
| RequestException
| HTTPError
| ConnectionError
| Timeout
| InvalidURL
| DecodeError
| ValidationError.

Definition exc_class_eqb (c d : exc_class) : bool :=
  match c, d with
  | Exception, Exception | ValueError, ValueError
  | RequestException, RequestException | HTTPError, HTTPError
  | ConnectionError, ConnectionError | Timeout, Timeout
  | InvalidURL, InvalidURL | DecodeError, DecodeError
  | ValidationError, ValidationError => true
  | _, _ => false
  end.

(** Direct base classes, restricted to the classes above. *)
Definition bases (c : exc_class) : list exc_class :=
  match c with
  | Exception => []
  | ValueError => [Exception]
  | RequestException => [Exception]
  | HTTPError => [RequestException]
  | ConnectionError => [RequestException]
  | Timeout => [RequestException]
  | InvalidURL => [RequestException; ValueError]
  | DecodeError => [Exception]
  | ValidationError => [ValueError]
  end.

(** [issubclass c d]: reflexive and transitive closure of [bases].  The
    hierarchy has depth three, which bounds the search. *)
Fixpoint issubclass_upto (depth : nat) (c d : exc_class) : bool :=
  exc_class_eqb c d ||
  match depth with
  | O => false
  | S depth' => existsb (fun b => issubclass_upto depth' b d) (bases c)
  end.

Definition issubclass (c d : exc_class) : bool := issubclass_upto 3 c d.

(** An exception instance: its class and the text of [str(e)]. *)
Record exn : Type := mk_exn { exc_type : exc_class; exc_str : string }.

Definition isinstance (e : exn) (c : exc_class) : bool :=
  issubclass (exc_type e) c.

End exceptions.
Import exceptions.

(** ** The HTTP response, as [requests] presents it *)

Definition lower_ascii (a : ascii) : ascii :=
  let n := nat_of_ascii a in
  if (Nat.leb 65 n && Nat.leb n 90)%bool then ascii_of_nat (n + 32) else a.

Fixpoint lower (s : string) : string :=
  match s with
  | EmptyString => EmptyString
  | String a s' => String (lower_ascii a) (lower s')
  end.

(** [response.headers] is a dictionary whose keys compare without regard to
    case; [headers_get h k] is [h.get(k)], absent keys giving [None]. *)
Fixpoint headers_get (h : list (string * string)) (key : string) : option string :=
  match h with
  | [] => None
  | (k, v) :: h' =>
      if String.eqb (lower k) (lower key) then Some v else headers_get h' key
  end.

Record Response : Type := mk_Response {
  status_code : Z;
  headers : list (string * string);
  content : list byte
}.

(** What one call of [requests.get] does: it hands back a response or raises. *)
Inductive http_outcome : Type :=
| Responds (r : Response)
| Fails (e : exn).

(** ** Effects: the HTTP calls and the sleeps, in the order they happen *)

Inductive event : Type :=
| EvGet (url : string) (timeout : Z)
| EvSleep (seconds : Z).

Definition world : Type := list event.

Definition is_get (ev : event) : bool :=
  match ev with EvGet _ _ => true | EvSleep _ => false end.

Definition is_sleep (ev : event) : bool :=
  match ev with EvSleep _ => true | EvGet _ _ => false end.

(** Number of HTTP requests issued so far. *)
Definition http_calls (w : world) : nat := List.length (filter is_get w).

(** Number of backoff sleeps so far. *)
Definition sleeps (w : world) : nat := List.length (filter is_sleep w).

(** How a Python block ends: with a value, or with a raised exception. *)
Inductive completion (A : Type) : Type :=
| Returns (a : A)
| Raises (e : exn).
Arguments Returns {A} a.
Arguments Raises {A} e.

Definition M (A : Type) : Type := world -> completion A * world.

Definition ret {A} (a : A) : M A := fun w => (Returns a, w).
Definition raise {A} (e : exn) : M A := fun w => (Raises e, w).
Definition bind {A B} (m : M A) (k : A -> M B) : M B :=
  fun w =>
    match m w with
    | (Returns a, w') => k a w'
    | (Raises e, w') => (Raises e, w')
    end.
Definition lift {A} (c : completion A) : M A := fun w => (c, w).

(** [try_except body handler]: the handler runs on the exception the body
    raised; what the handler raises itself is not caught again. *)
Definition try_except {A} (body : M A) (handler : exn -> M A) : M A :=
  fun w =>
    match body w with
    | (Returns a, w') => (Returns a, w')
    | (Raises e, w') => handler e w'
    end.

Definition cbind {A B} (c : completion A) (k : A -> completion B) : completion B :=
  match c with
  | Returns a => k a
  | Raises e => Raises e
  end.

Declare Scope py_scope.
Delimit Scope py_scope with py.
Notation "x <- m ;; k" := (bind m (fun x => k))
  (at level 61, m at next level, right associativity) : py_scope.
Notation "m ;;; k" := (bind m (fun _ => k))
  (at level 61, right associativity) : py_scope.

(** ** The decoded feed: [gtfs_realtime_pb2]

    The wire schema is proto2: every optional scalar carries a presence bit,
    which [option] records here.  Reading a field through the bindings never
    fails: an unset scalar reads as the default the schema declares for it,
    and an unset sub-message reads as an instance with nothing set.  Presence
    is only visible through [HasField]. *)
Module pb2.

(** Reading an optional scalar: its value, or the declared default. *)
Definition read {T : Type} (default : T) (field : option T) : T :=
  match field with
  | Some v => v
  | None => default
  end.

(** [msg.HasField(name)]. *)
Definition HasField {T : Type} (field : option T) : bool :=
  match field with
  | Some _ => true
  | None => false
  end.

Module TripDescriptor.
Record t : Type := mk {
    trip_id : option string;
    route_id : option string;
    direction_id : option Z;
    start_time : option string;
    start_date : option string;
    schedule_relationship : option Z
  }.
Definition unset : t := mk None None None None None None.
End TripDescriptor.

Module VehicleDescriptor.
Record t : Type := mk {
    id : option string;
    label : option string;
    license_plate : option string
  }.
Definition unset : t := mk None None None.
End VehicleDescriptor.

Module Position.
Record t : Type := mk {
    latitude : option float;
    longitude : option float;
    bearing : option float;
    odometer : option float;
    speed : option float
  }.
Definition unset : t := mk None None None None None.
End Position.

Module CarriageDetails.
Record t : Type := mk {
    id : option string;
    label : option string;
    occupancy_status : option Z;
    occupancy_percentage : option Z;
    carriage_sequence : option Z
  }.
End CarriageDetails.

Module VehiclePosition.
Record t : Type := mk {
    trip : option TripDescriptor.t;
    vehicle : option VehicleDescriptor.t;
    position : option Position.t;
    current_stop_sequence : option Z;
    stop_id : option string;
    current_status : option Z;
    timestamp : option Z;
    congestion_level : option Z;
    occupancy_status : option Z;
    occupancy_percentage : option Z;
    multi_carriage_details : list CarriageDetails.t
  }.
Definition unset : t :=
    mk None None None None None None None None None None [].
End VehiclePosition.

(** Trip updates and alerts are not looked into by the function: only their
    presence matters.  They are kept as their undecoded bytes. *)
Module TripUpdate.
Record t : Type := mk { payload : list byte }.
End TripUpdate.

Module Alert.
Record t : Type := mk { payload : list byte }.
End Alert.

Module FeedHeader.
Record t : Type := mk {
    gtfs_realtime_version : string;
    incrementality : option Z;
    timestamp : option Z
  }.
End FeedHeader.

(** The three payload fields are three optional members, not a [oneof]: the
    bindings accept an entity with several of them set, or none. *)
Module FeedEntity.
Record t : Type := mk {
    id : string;
    is_deleted : option bool;
    trip_update : option TripUpdate.t;
    vehicle : option VehiclePosition.t;
    alert : option Alert.t
  }.
End FeedEntity.

Module FeedMessage.
Record t : Type := mk {
    header : FeedHeader.t;
    entity : list FeedEntity.t
  }.
End FeedMessage.

(** Reading an optional sub-message: the one set, or an instance with nothing
    set. *)
Definition read_trip (v : VehiclePosition.t) : TripDescriptor.t :=
  read TripDescriptor.unset (VehiclePosition.trip v).
Definition read_vehicle (v : VehiclePosition.t) : VehicleDescriptor.t :=
  read VehicleDescriptor.unset (VehiclePosition.vehicle v).
Definition read_position (v : VehiclePosition.t) : Position.t :=
  read Position.unset (VehiclePosition.position v).

(** Defaults of the enumerated fields, from the wire schema:
    [schedule_relationship] SCHEDULED, [current_status] IN_TRANSIT_TO (the one
    explicit default), [congestion_level] UNKNOWN_CONGESTION_LEVEL,
    [occupancy_status] EMPTY. *)
Definition SCHEDULED : Z := 0.
Definition IN_TRANSIT_TO : Z := 2.
Definition UNKNOWN_CONGESTION_LEVEL : Z := 0.
Definition EMPTY : Z := 0.

End pb2.

(** [getattr(msg, name, None)] on a message of the bindings.  Every name the
    function asks for is a field of the schema, so the attribute exists and
    the third argument is never used: the result is what reading the field
    gives. *)
Definition getattr {T : Type} (field_value : T) (default : option T) : option T :=
  Some field_value.

(** ** The schema classes of the source

    [Optional[X]] is [option X].  [dict] stands for a loosely typed record;
    the function only ever builds the empty one. *)
Definition dict : Type := list (string * string).

Module PositionModel.
Record t : Type := mk {
    latitude : option float;
    longitude : option float;
    bearing : option float;
    odometer : option float;
    speed : option float
  }.
End PositionModel.

Module VehicleInfoModel.
Record t : Type := mk {
    id : option string;
    label : option string;
    license_plate : option string
  }.
End VehicleInfoModel.

Module TripModel.
Record t : Type := mk {
    trip_id : option string;
    route_id : option string;
    direction_id : option Z;
    start_time : option string;
    start_date : option string;
    schedule_relationship : option Z
  }.
End TripModel.

Module VehiclePositionModel.
Record t : Type := mk {
    id : string;
    trip : option TripModel.t;
    vehicle : option VehicleInfoModel.t;
    position : option PositionModel.t;
    current_stop_sequence : option Z;
    stop_id : option string;
    current_status : option Z;
    timestamp : option Z;
    congestion_level : option Z;
    occupancy_status : option Z;
    occupancy_percentage : option Z;
    multi_carriage_details : option (list dict)
  }.
End VehiclePositionModel.

Module GTFSRTDataModel.
Record t : Type := mk {
    vehicle : option VehiclePositionModel.t;
    trip_update : option dict;
    alert : option dict
  }.
End GTFSRTDataModel.

(** The dictionary [vehicle_data] that the function builds for one entity,
    before validation.  The nested dictionaries already have the shape of the
    nested schema classes; [multi_carriage_details] still holds the messages
    of the bindings. *)
Module vehicle_data.
Record t : Type := mk {
    id : string;
    trip : TripModel.t;
    vehicle : VehicleInfoModel.t;
    position : PositionModel.t;
    current_stop_sequence : option Z;
    stop_id : option string;
    current_status : option Z;
    timestamp : option Z;
    congestion_level : option Z;
    occupancy_status : option Z;
    occupancy_percentage : option Z;
    multi_carriage_details : list pb2.CarriageDetails.t
  }.
End vehicle_data.

(** ** Mapping one entity (the dictionary literal of the entity loop) *)

Import pb2.

Definition build_trip (trip : TripDescriptor.t) : TripModel.t :=
  {| TripModel.trip_id := getattr (read "" (TripDescriptor.trip_id trip)) None;
     TripModel.route_id := getattr (read "" (TripDescriptor.route_id trip)) None;
     TripModel.direction_id := getattr (read 0 (TripDescriptor.direction_id trip)) None;
     TripModel.start_time := getattr (read "" (TripDescriptor.start_time trip)) None;
     TripModel.start_date := getattr (read "" (TripDescriptor.start_date trip)) None;
     TripModel.schedule_relationship :=
       getattr (read SCHEDULED (TripDescriptor.schedule_relationship trip)) None |}.

Definition build_vehicle (vehicle : VehicleDescriptor.t) : VehicleInfoModel.t :=
  {| VehicleInfoModel.id := getattr (read "" (VehicleDescriptor.id vehicle)) None;
     VehicleInfoModel.label := getattr (read "" (VehicleDescriptor.label vehicle)) None;
     VehicleInfoModel.license_plate :=
       getattr (read "" (VehicleDescriptor.license_plate vehicle)) None |}.

Definition build_position (position : Position.t) : PositionModel.t :=
  {| PositionModel.latitude := getattr (read PrimFloat.zero (Position.latitude position)) None;
     PositionModel.longitude := getattr (read PrimFloat.zero (Position.longitude position)) None;
     PositionModel.bearing := getattr (read PrimFloat.zero (Position.bearing position)) None;
     PositionModel.odometer := getattr (read PrimFloat.zero (Position.odometer position)) None;
     PositionModel.speed := getattr (read PrimFloat.zero (Position.speed position)) None |}.

(** [entity.vehicle.multi_carriage_details or []]: an empty repeated field is
    falsy, so both branches give the sequence of the messages present. *)
Definition or_empty {T : Type} (l : list T) : list T :=
  match l with
  | [] => []
  | _ :: _ => l
  end.

Definition build_vehicle_data (feed : FeedMessage.t) (entity : FeedEntity.t)
  : vehicle_data.t :=
  let entity_vehicle := read VehiclePosition.unset (FeedEntity.vehicle entity) in
  {| vehicle_data.id := FeedEntity.id entity;
     vehicle_data.trip := build_trip (read_trip entity_vehicle);
     vehicle_data.vehicle := build_vehicle (read_vehicle entity_vehicle);
     vehicle_data.position := build_position (read_position entity_vehicle);
     vehicle_data.current_stop_sequence :=
       getattr (read 0 (VehiclePosition.current_stop_sequence entity_vehicle)) None;
     vehicle_data.stop_id :=
       getattr (read "" (VehiclePosition.stop_id entity_vehicle)) None;
     vehicle_data.current_status :=
       getattr (read IN_TRANSIT_TO (VehiclePosition.current_status entity_vehicle)) None;
     vehicle_data.timestamp :=
       getattr (read 0 (FeedHeader.timestamp (FeedMessage.header feed))) None;
     vehicle_data.congestion_level :=
       getattr (read UNKNOWN_CONGESTION_LEVEL
                  (VehiclePosition.congestion_level entity_vehicle)) None;
     vehicle_data.occupancy_status :=
       getattr (read EMPTY (VehiclePosition.occupancy_status entity_vehicle)) None;
     vehicle_data.occupancy_percentage :=
       getattr (read 0 (VehiclePosition.occupancy_percentage entity_vehicle)) None;
     vehicle_data.multi_carriage_details :=
       or_empty (VehiclePosition.multi_carriage_details entity_vehicle) |}.

(** ** Validation: [VehiclePositionModel] built from [vehicle_data]

    Every scalar of [vehicle_data] already has the type its field declares (a
    string for [str], an integer for [int], a float for [float]), and the
    three nested dictionaries have every key of their class, so those fields
    validate to themselves.  [multi_carriage_details] is declared
    [Optional[List[dict]]] and receives messages of the bindings; such a
    message is not a dictionary (nor a mapping), so no item validates, and
    only the empty sequence passes. *)
Definition validate_dict (item : CarriageDetails.t) : option dict := None.

Fixpoint validate_List_dict (items : list CarriageDetails.t) : option (list dict) :=
  match items with
  | [] => Some []
  | item :: items' =>
      match validate_dict item, validate_List_dict items' with
      | Some d, Some ds => Some (d :: ds)
      | _, _ => None
      end
  end.

(** The exception the validator raises.  Its class is [ValidationError]; its
    text, in the program the validator's own report on the offending input,
    is not modelled: the constant below stands in for it, and the statements
    rely on the class and on the events only. *)
Definition validation_error : exn :=
  mk_exn ValidationError "validation error for VehiclePositionModel".

Definition VehiclePositionModel_validate (d : vehicle_data.t)
  : completion VehiclePositionModel.t :=
  match validate_List_dict (vehicle_data.multi_carriage_details d) with
  | Some details =>
      Returns
        {| VehiclePositionModel.id := vehicle_data.id d;
           VehiclePositionModel.trip := Some (vehicle_data.trip d);
           VehiclePositionModel.vehicle := Some (vehicle_data.vehicle d);
           VehiclePositionModel.position := Some (vehicle_data.position d);
           VehiclePositionModel.current_stop_sequence := vehicle_data.current_stop_sequence d;
           VehiclePositionModel.stop_id := vehicle_data.stop_id d;
           VehiclePositionModel.current_status := vehicle_data.current_status d;
           VehiclePositionModel.timestamp := vehicle_data.timestamp d;
           VehiclePositionModel.congestion_level := vehicle_data.congestion_level d;
           VehiclePositionModel.occupancy_status := vehicle_data.occupancy_status d;
           VehiclePositionModel.occupancy_percentage := vehicle_data.occupancy_percentage d;
           VehiclePositionModel.multi_carriage_details := Some details |}
  | None => Raises validation_error
  end.

(** [model_dump()] turns an instance into nested dictionaries with the same
    keys and values; the record types stand for both. *)
Definition model_dump {A : Type} (instance : A) : A := instance.

(** [GTFSRTDataModel] built from [result]: the vehicle slot holds a dumped, validated
    instance (or [None]) and the other two slots an empty dictionary (or
    [None]), all of which the class accepts. *)
Definition GTFSRTDataModel_validate (result : GTFSRTDataModel.t)
  : completion GTFSRTDataModel.t :=
  Returns result.

(** ** The entity loop *)

Definition initial_result : GTFSRTDataModel.t :=
  {| GTFSRTDataModel.vehicle := None;
     GTFSRTDataModel.trip_update := None;
     GTFSRTDataModel.alert := None |}.

Definition set_vehicle (result : GTFSRTDataModel.t) (v : VehiclePositionModel.t) :=
  {| GTFSRTDataModel.vehicle := Some v;
     GTFSRTDataModel.trip_update := GTFSRTDataModel.trip_update result;
     GTFSRTDataModel.alert := GTFSRTDataModel.alert result |}.

Definition set_trip_update (result : GTFSRTDataModel.t) (d : dict) :=
  {| GTFSRTDataModel.vehicle := GTFSRTDataModel.vehicle result;
     GTFSRTDataModel.trip_update := Some d;
     GTFSRTDataModel.alert := GTFSRTDataModel.alert result |}.

Definition set_alert (result : GTFSRTDataModel.t) (d : dict) :=
  {| GTFSRTDataModel.vehicle := GTFSRTDataModel.vehicle result;
     GTFSRTDataModel.trip_update := GTFSRTDataModel.trip_update result;
     GTFSRTDataModel.alert := Some d |}.

(** The body of [for entity in feed.entity], on the dictionary [result]. *)
Definition process_entity (feed : FeedMessage.t) (result : GTFSRTDataModel.t)
  (entity : FeedEntity.t) : completion GTFSRTDataModel.t :=
  cbind
    (if HasField (FeedEntity.vehicle entity) then
       cbind (VehiclePositionModel_validate (build_vehicle_data feed entity))
         (fun validated_data =>
            Returns (set_vehicle result (model_dump validated_data)))
     else Returns result)
    (fun result =>
       let result :=
         if HasField (FeedEntity.trip_update entity)
         then set_trip_update result [] else result in
       let result :=
         if HasField (FeedEntity.alert entity)
         then set_alert result [] else result in
       Returns result).

Fixpoint process_entities (feed : FeedMessage.t) (result : GTFSRTDataModel.t)
  (entities : list FeedEntity.t) : completion GTFSRTDataModel.t :=
  match entities with
  | [] => Returns result
  | entity :: entities' =>
      cbind (process_entity feed result entity)
        (fun result' => process_entities feed result' entities')
  end.

(** Step 3 of the function: extract, validate, and build the returned
    dictionary. *)
Definition extract (feed : FeedMessage.t) : completion GTFSRTDataModel.t :=
  cbind (process_entities feed initial_result (FeedMessage.entity feed))
    (fun result =>
       cbind (GTFSRTDataModel_validate result)
         (fun validated_result => Returns (model_dump validated_result))).

(** ** One attempt and the retry loop *)

Definition REQUIRED_CONTENT_TYPE : string := "application/x-protobuf".

(** How an f-string prints [headers.get(...)]. *)
Definition format_optional (v : option string) : string :=
  match v with
  | Some s => s
  | None => "None"
  end.

Definition option_string_eqb (a b : option string) : bool :=
  match a, b with
  | Some x, Some y => String.eqb x y
  | None, None => true
  | _, _ => false
  end.

(** [not response.content]. *)
Definition is_empty (b : list byte) : bool :=
  match b with
  | [] => true
  | _ :: _ => false
  end.

(** [range(n)]: empty when [n] is zero or negative. *)
Definition range (n : Z) : list Z := map Z.of_nat (seq 0 (Z.to_nat n)).

(** How one pass through the loop body ends. *)
Inductive flow (A : Type) : Type :=
| Return_ (a : A)
| NextIteration.
Arguments Return_ {A} a.
Arguments NextIteration {A}.

Section Fetch.

(** The decoder of the bindings: a feed, or the text of a decode error. *)
Variable ParseFromString : list byte -> string + FeedMessage.t.

(** The HTTP client: what the [n]-th call (counting from zero) of
    [requests.get(url, timeout)] in this invocation does. *)
Variable requests_get : string -> Z -> nat -> http_outcome.

Definition requests_get_call (url : string) (timeout : Z) : M Response :=
  fun w =>
    (match requests_get url timeout (http_calls w) with
     | Responds r => Returns r
     | Fails e => Raises e
     end, (w ++ [EvGet url timeout])%list).

Definition time_sleep (seconds : Z) : M unit :=
  fun w => (Returns tt, (w ++ [EvSleep seconds])%list).

(** The two checks on the response. *)
Definition check_response (response : Response) : completion unit :=
  let content_type := headers_get (headers response) "Content-Type" in
  if negb (option_string_eqb content_type (Some REQUIRED_CONTENT_TYPE)) then
    Raises (mk_exn ValueError
              ("Unexpected content type: " ++ format_optional content_type))
  else if is_empty (content response) then
    Raises (mk_exn Exception "No valid GTFS RT data found")
  else Returns tt.

(** Step 2: decoding; a decode error is raised again with a prefixed text. *)
Definition parse (body : list byte) : completion FeedMessage.t :=
  match ParseFromString body with
  | inr feed => Returns feed
  | inl e => Raises (mk_exn DecodeError ("Error parsing message: " ++ e))
  end.

(** The [try] block after the HTTP call returned. *)
Definition process_response (response : Response) : completion GTFSRTDataModel.t :=
  cbind (check_response response) (fun _ =>
  cbind (parse (content response)) (fun feed =>
  extract feed)).

(** The whole [try] block. *)
Definition try_block (url : string) : M GTFSRTDataModel.t :=
  (response <- requests_get_call url 10 ;;
   lift (process_response response))%py.

(** The [except] clauses, tried in the order they are written. *)
Definition except_clauses (e : exn) (attempt retries : Z) : M unit :=
  if isinstance e HTTPError then
    raise (mk_exn Exception ("Error fetching GTFS RT data: " ++ exc_str e))
  else if isinstance e RequestException then
    if (attempt <? retries - 1)%Z then time_sleep 2 else raise e
  else if isinstance e DecodeError then raise e
  else if isinstance e ValidationError then raise e
  else if isinstance e ValueError then raise e
  else
    if (attempt <? retries - 1)%Z then time_sleep 2 else raise e.

(** One pass through the loop body. *)
Definition iteration (url : string) (attempt retries : Z)
  : M (flow GTFSRTDataModel.t) :=
  try_except
    (validated_result <- try_block url ;; ret (Return_ validated_result))%py
    (fun e => (except_clauses e attempt retries ;;; ret NextIteration)%py).

(** [for attempt in ...]; when the attempts run out without a [return] or a
    [raise], the function ends and its value is [None]. *)
Fixpoint for_attempt_in (attempts : list Z) (url : string) (retries : Z)
  : M (option GTFSRTDataModel.t) :=
  match attempts with
  | [] => ret None
  | attempt :: attempts' =>
      (outcome <- iteration url attempt retries ;;
       match outcome with
       | Return_ validated_result => ret (Some validated_result)
       | NextIteration => for_attempt_in attempts' url retries
       end)%py
  end.

Definition fetch_gtfs_rt_data (url : string) (retries : Z)
  : M (option GTFSRTDataModel.t) :=
  for_attempt_in (range retries) url retries.

(** An invocation, from a world in which nothing has happened yet. *)
Definition run (url : string) (retries : Z)
  : completion (option GTFSRTDataModel.t) * world :=
  fetch_gtfs_rt_data url retries [].

End Fetch.

(** The default of the [retries] parameter. *)
Definition default_retries : Z := 3.

(** The end of the [try] block, as a function of what the HTTP call did. *)
Definition attempt_result (ParseFromString : list byte -> string + FeedMessage.t)
  (o : http_outcome) : completion GTFSRTDataModel.t :=
  match o with
  | Responds r => process_response ParseFromString r
  | Fails e => Raises e
  end.

(** ** Vocabulary of the statements *)

(** The entity is vehicle-tagged: [entity.HasField('vehicle')]. *)
Definition has_vehicle (entity : FeedEntity.t) : bool :=
  HasField (FeedEntity.vehicle entity).

(** The vehicle-tagged entities of a feed, in feed order. *)
Definition vehicle_entities (feed : FeedMessage.t) : list FeedEntity.t :=
  filter has_vehicle (FeedMessage.entity feed).

(** The entity's mapped record is accepted by the schema. *)
Definition passes_validation (feed : FeedMessage.t) (entity : FeedEntity.t) : Prop :=
  exists validated,
    VehiclePositionModel_validate (build_vehicle_data feed entity) = Returns validated.

(** A request error other than [HTTPError]: connection failures, timeouts and
    the like. *)
Definition is_network_error (e : exn) : bool :=
  isinstance e RequestException && negb (isinstance e HTTPError).

(** The exceptions that reach an [except] clause which sleeps and goes on. *)
Definition retried (e : exn) : bool :=
  negb (isinstance e HTTPError) &&
  (isinstance e RequestException ||
   negb (isinstance e DecodeError || isinstance e ValidationError
         || isinstance e ValueError)).

(** What the caller sees of an exception that is not retried. *)
Definition surfaced (e : exn) : exn :=
  if isinstance e HTTPError
  then mk_exn Exception ("Error fetching GTFS RT data: " ++ exc_str e)
  else e.

(** The events of [n] attempts that each end in a retry, but the last: one
    request per attempt, one sleep of two seconds between two requests. *)
Fixpoint retry_trace (url : string) (n : nat) : world :=
  match n with
  | O => []
  | S n' => EvSleep 2 :: EvGet url 10 :: retry_trace url n'
  end.

Definition attempts_trace (url : string) (n : nat) : world :=
  match n with
  | O => []
  | S n' => EvGet url 10 :: retry_trace url n'
  end.

Definition empty_body_error : exn := mk_exn Exception "No valid GTFS RT data found".

(** The entity with its own, per-vehicle timestamp replaced. *)
Definition with_vehicle_timestamp (entity : FeedEntity.t) (ts : option Z) : FeedEntity.t :=
  match FeedEntity.vehicle entity with
  | None => entity
  | Some v =>
      FeedEntity.mk (FeedEntity.id entity) (FeedEntity.is_deleted entity)
        (FeedEntity.trip_update entity)
        (Some (VehiclePosition.mk
                 (VehiclePosition.trip v) (VehiclePosition.vehicle v)
                 (VehiclePosition.position v)
                 (VehiclePosition.current_stop_sequence v)
                 (VehiclePosition.stop_id v) (VehiclePosition.current_status v)
                 ts
                 (VehiclePosition.congestion_level v)
                 (VehiclePosition.occupancy_status v)
                 (VehiclePosition.occupancy_percentage v)
                 (VehiclePosition.multi_carriage_details v)))
        (FeedEntity.alert entity)
  end.

(** ** Fixtures: a stand-in decoder and a few responses *)

Module Fixtures.

Definition url : string := "http://example.com/gtfs-realtime".

Definition protobuf_headers : list (string * string) :=
  [("Content-Type", "application/x-protobuf")].

Definition header : FeedHeader.t := FeedHeader.mk "2.0" None (Some 1700000000).

(** A vehicle entity in which nothing but the entity id is set. *)
Definition bare_vehicle (id : string) : FeedEntity.t :=
  FeedEntity.mk id None None (Some VehiclePosition.unset) None.

(** A vehicle entity whose trip sub-message is present, with nothing set in it. *)
Definition empty_trip_vehicle (id : string) : FeedEntity.t :=
  FeedEntity.mk id None None
    (Some (VehiclePosition.mk (Some TripDescriptor.unset) None None
             None None None None None None None []))
    None.

(** A vehicle entity with a stop, a trip and a timestamp of its own. *)
Definition bus (id stop : string) (ts : Z) : FeedEntity.t :=
  FeedEntity.mk id None None
    (Some (VehiclePosition.mk
             (Some (TripDescriptor.mk (Some "T1") (Some "R9") None None None None))
             None None (Some 4) (Some stop) (Some 1) (Some ts) None None None []))
    None.

(** A vehicle entity that carries one carriage record. *)
Definition train (id : string) : FeedEntity.t :=
  FeedEntity.mk id None None
    (Some (VehiclePosition.mk None None None None None None None None None None
             [CarriageDetails.mk (Some "c1") None None None (Some 1)]))
    None.

Definition feed_one : FeedMessage.t := FeedMessage.mk header [bare_vehicle "1"].
Definition feed_two : FeedMessage.t :=
  FeedMessage.mk header [bus "1" "S1" 11; bus "2" "S2" 22].
Definition feed_train : FeedMessage.t :=
  FeedMessage.mk header [bus "1" "S1" 11; train "2"; bus "3" "S3" 33].

(** The decoder on three chosen byte strings; everything else is malformed. *)
Definition ParseFromString (body : list byte) : string + FeedMessage.t :=
  match body with
  | [x01] => inr feed_one
  | [x02] => inr feed_two
  | [x03] => inr feed_train
  | _ => inl "Error parsing message"
  end.

Definition response (status : Z) (body : list byte) : Response :=
  mk_Response status protobuf_headers body.

Definition html_response : Response :=
  mk_Response 200 [("Content-Type", "text/html")] [x3c; x68; x74; x6d; x6c; x3e].

Definition timeout_error : exn := mk_exn Timeout "timed out".
Definition connection_error : exn := mk_exn ConnectionError "connection refused".
Definition invalid_url_error : exn := mk_exn InvalidURL "invalid URL".

(** HTTP clients: the same outcome at every call, or a scripted sequence whose
    last outcome repeats. *)
Definition always (o : http_outcome) : string -> Z -> nat -> http_outcome :=
  fun _ _ _ => o.

Definition script (first second rest : http_outcome)
  : string -> Z -> nat -> http_outcome :=
  fun _ _ n =>
    match n with
    | O => first
    | S O => second
    | _ => rest
    end.

End Fixtures.

(** ** Vocabulary of the further properties *)

Definition has_trip_update (entity : FeedEntity.t) : bool :=
  HasField (FeedEntity.trip_update entity).

Definition has_alert (entity : FeedEntity.t) : bool :=
  HasField (FeedEntity.alert entity).

(** The entity has at least one of the three payloads set. *)
Definition has_payload (entity : FeedEntity.t) : bool :=
  has_vehicle entity || has_trip_update entity || has_alert entity.

(** The classes whose handler sleeps and goes on while attempts remain. *)
Definition retried_classes : list exc_class :=
  [Exception; RequestException; ConnectionError; Timeout; InvalidURL].

(** The classes whose handler raises the exception again at once. *)
Definition fatal_classes : list exc_class :=
  [ValueError; DecodeError; ValidationError].

(** What the caller sees in place of an [HTTPError]. *)
Definition wrapped_http_error (e : exn) : exn :=
  mk_exn Exception ("Error fetching GTFS RT data: " ++ exc_str e).

(** A field set on the wire shows with the same value in the record. *)
Definition copied {T : Type} (wire model : option T) : Prop :=
  forall x, wire = Some x -> model = Some x.

(** The entity with its [is_deleted] flag replaced. *)
Definition with_is_deleted (entity : FeedEntity.t) (flag : option bool) : FeedEntity.t :=
  FeedEntity.mk (FeedEntity.id entity) flag (FeedEntity.trip_update entity)
    (FeedEntity.vehicle entity) (FeedEntity.alert entity).

(** The feed with its entities replaced. *)
Definition with_entities (feed : FeedMessage.t) (entities : list FeedEntity.t)
  : FeedMessage.t :=
  FeedMessage.mk (FeedMessage.header feed) entities.

(** Two outcomes of an HTTP call that differ at most in the status code. *)
Definition same_but_status (o o' : http_outcome) : Prop :=
  match o, o' with
  | Responds r, Responds r' => headers r = headers r' /\ content r = content r'
  | Fails e, Fails e' => e = e'
  | _, _ => False
  end.

(** Further fixtures. *)
Module Scenarios.

Definition http_error : exn :=
  mk_exn HTTPError
    "500 Server Error: Internal Server Error for url: http://example.com/gtfs-realtime".

(** An entity with nothing but its id. *)
Definition bare (id : string) : FeedEntity.t := FeedEntity.mk id None None None None.

(** An entity with all three payloads set, flagged as deleted. *)
Definition crowded (id : string) : FeedEntity.t :=
  FeedEntity.mk id (Some true) (Some (TripUpdate.mk [x0a]))
    (Some (VehiclePosition.mk None None None None (Some "S7"%string) None None None None None []))
    (Some (Alert.mk [x0b])).

Definition alert_only (id : string) : FeedEntity.t :=
  FeedEntity.mk id None None None (Some (Alert.mk [x0b])).

Definition feed_alerts : FeedMessage.t :=
  FeedMessage.mk Fixtures.header [alert_only "a1"; bare "b2"; alert_only "a3"].

Definition feed_crowded : FeedMessage.t :=
  FeedMessage.mk Fixtures.header [bare "b1"; crowded "c2"].

Definition ParseFromString (body : list byte) : string + FeedMessage.t :=
  match body with
  | [x04] => inr feed_alerts
  | [x05] => inr feed_crowded
  | _ => Fixtures.ParseFromString body
  end.

(** A client scripted by a list of outcomes; the last one repeats. *)
Fixpoint nth_outcome (outcomes : list http_outcome) (last : http_outcome) (n : nat)
  : http_outcome :=
  match outcomes, n with
  | [], _ => last
  | o :: _, O => o
  | _ :: outcomes', S n' => nth_outcome outcomes' last n'
  end.

Definition scripted (outcomes : list http_outcome) (last : http_outcome)
  : string -> Z -> nat -> http_outcome :=
  fun _ _ n => nth_outcome outcomes last n.

End Scenarios.

(** ** The result of a feed that validates, in closed form *)

(** The last vehicle-tagged entity of the feed, if there is one. *)
Definition last_vehicle_entity (feed : FeedMessage.t) : option FeedEntity.t :=
  match vehicle_entities feed with
  | [] => None
  | first :: _ => Some (last (vehicle_entities feed) first)
  end.

(** The record that a dictionary which passes validation is stored as: every
    key with the value the dictionary has for it, the three nested
    dictionaries present, and no carriage record. *)
Definition validated_record_of (d : vehicle_data.t) : VehiclePositionModel.t :=
  {| VehiclePositionModel.id := vehicle_data.id d;
     VehiclePositionModel.trip := Some (vehicle_data.trip d);
     VehiclePositionModel.vehicle := Some (vehicle_data.vehicle d);
     VehiclePositionModel.position := Some (vehicle_data.position d);
     VehiclePositionModel.current_stop_sequence := vehicle_data.current_stop_sequence d;
     VehiclePositionModel.stop_id := vehicle_data.stop_id d;
     VehiclePositionModel.current_status := vehicle_data.current_status d;
     VehiclePositionModel.timestamp := vehicle_data.timestamp d;
     VehiclePositionModel.congestion_level := vehicle_data.congestion_level d;
     VehiclePositionModel.occupancy_status := vehicle_data.occupancy_status d;
     VehiclePositionModel.occupancy_percentage := vehicle_data.occupancy_percentage d;
     VehiclePositionModel.multi_carriage_details := Some [] |}.

(** What the entity loop is compared with on a feed whose vehicle entities all
    pass validation: the vehicle slot holds the record of the last vehicle
    entity, mapped with the header of the feed; the other two slots hold the
    empty dictionary when some entity has the payload. *)
Definition valid_feed_result (feed : FeedMessage.t) : GTFSRTDataModel.t :=
  {| GTFSRTDataModel.vehicle :=
       option_map (fun entity => validated_record_of (build_vehicle_data feed entity))
         (last_vehicle_entity feed);
     GTFSRTDataModel.trip_update :=
       if existsb has_trip_update (FeedMessage.entity feed) then Some [] else None;
     GTFSRTDataModel.alert :=
       if existsb has_alert (FeedMessage.entity feed) then Some [] else None |}.

(** * Properties *)

Local Open Scope list_scope.

(** ** Counting events *)

Lemma http_calls_app (w1 w2 : world) :
  http_calls (w1 ++ w2) = (http_calls w1 + http_calls w2)%nat.
Proof.
  unfold http_calls. rewrite filter_app, length_app. reflexivity.
Qed.

Lemma http_calls_snoc_get (w : world) (url : string) (timeout : Z) :
  http_calls (w ++ [EvGet url timeout]) = S (http_calls w).
Proof.
  rewrite http_calls_app. cbn. lia.
Qed.

Lemma http_calls_snoc_sleep (w : world) (seconds : Z) :
  http_calls (w ++ [EvSleep seconds]) = http_calls w.
Proof.
  rewrite http_calls_app. cbn. lia.
Qed.

Lemma http_calls_attempts_trace (url : string) (n : nat) :
  http_calls (attempts_trace url n) = n.
Proof.
  destruct n as [|n]; [reflexivity|].
  cbn. f_equal. induction n as [|n IH]; [reflexivity|].
  cbn. f_equal. exact IH.
Qed.

Lemma sleeps_attempts_trace (url : string) (n : nat) :
  sleeps (attempts_trace url n) = Nat.pred n.
Proof.
  destruct n as [|n]; [reflexivity|].
  cbn. induction n as [|n IH]; [reflexivity|].
  cbn. f_equal. exact IH.
Qed.

(** ** The attempts list *)

Lemma range_nonpositive (n : Z) : n <= 0 -> range n = [].
Proof.
  intros H. unfold range.
  replace (Z.to_nat n) with O by lia. reflexivity.
Qed.

Lemma range_of_nat (n : nat) : range (Z.of_nat n) = map Z.of_nat (seq 0 n).
Proof.
  unfold range. rewrite Nat2Z.id. reflexivity.
Qed.

(** ** Exception classes *)

Lemma retried_network (e : exn) : is_network_error e = true -> retried e = true.
Proof.
  unfold is_network_error, retried.
  destruct (isinstance e HTTPError); cbn.
  - rewrite andb_false_r. discriminate.
  - rewrite andb_true_r. intros ->. reflexivity.
Qed.

Lemma retried_InvalidURL (e : exn) : exc_type e = InvalidURL -> retried e = true.
Proof.
  destruct e as [c s]. cbn. intros ->. reflexivity.
Qed.

Lemma network_InvalidURL (e : exn) :
  exc_type e = InvalidURL -> is_network_error e = true.
Proof.
  destruct e as [c s]. cbn. intros ->. reflexivity.
Qed.

Lemma retried_not_HTTPError (e : exn) :
  retried e = true -> isinstance e HTTPError = false.
Proof.
  unfold retried. destruct (isinstance e HTTPError); [discriminate|reflexivity].
Qed.

Lemma fatal_ValidationError (e : exn) :
  exc_type e = ValidationError -> retried e = false /\ surfaced e = e.
Proof.
  destruct e as [c s]. cbn. intros ->. split; reflexivity.
Qed.

(** ** One pass through the loop body *)

Ltac unfold_iteration :=
  unfold iteration, try_except, try_block, bind, ret, raise, lift,
    requests_get_call, attempt_result in *.

Ltac unfold_loop := cbn [for_attempt_in]; unfold bind, ret.

Ltac unfold_run := unfold run, fetch_gtfs_rt_data.

Ltac unfold_attempt_result := unfold attempt_result in *.

Ltac unfold_process_response := unfold process_response, check_response, parse.

Section Loop.

Variable ParseFromString : list byte -> string + FeedMessage.t.
Variable requests_get : string -> Z -> nat -> http_outcome.

Local Abbreviation process_response := (process_response ParseFromString).
Local Abbreviation iteration := (iteration ParseFromString requests_get).
Local Abbreviation for_attempt_in := (for_attempt_in ParseFromString requests_get).
Local Abbreviation run := (run ParseFromString requests_get).

Local Abbreviation attempt_result := (attempt_result ParseFromString).

Lemma iteration_returns url attempt retries w res :
  attempt_result (requests_get url 10 (http_calls w)) = Returns res ->
  iteration url attempt retries w = (Returns (Return_ res), w ++ [EvGet url 10]).
Proof.
  unfold_iteration. intros H.
  destruct (requests_get url 10 (http_calls w)) as [r|e]; [|discriminate].
  rewrite H. reflexivity.
Qed.

Lemma except_clauses_fatal e attempt retries w :
  retried e = false ->
  except_clauses e attempt retries w = (Raises (surfaced e), w).
Proof.
  unfold retried, surfaced, except_clauses, raise.
  destruct (isinstance e HTTPError); [reflexivity|].
  destruct (isinstance e RequestException); [discriminate|].
  destruct (isinstance e DecodeError); [reflexivity|].
  destruct (isinstance e ValidationError); [reflexivity|].
  destruct (isinstance e ValueError); [reflexivity|discriminate].
Qed.

Lemma except_clauses_retry e attempt retries w :
  retried e = true -> attempt < retries - 1 ->
  except_clauses e attempt retries w = (Returns tt, w ++ [EvSleep 2]).
Proof.
  unfold retried, except_clauses, time_sleep. intros Hr Hlt.
  apply Z.ltb_lt in Hlt. rewrite Hlt.
  destruct (isinstance e HTTPError); [discriminate|].
  destruct (isinstance e RequestException); [reflexivity|].
  destruct (isinstance e DecodeError); [discriminate|].
  destruct (isinstance e ValidationError); [discriminate|].
  destruct (isinstance e ValueError); [discriminate|reflexivity].
Qed.

Lemma except_clauses_last e attempt retries w :
  retried e = true -> retries - 1 <= attempt ->
  except_clauses e attempt retries w = (Raises e, w).
Proof.
  unfold retried, except_clauses, raise. intros Hr Hge.
  apply Z.ltb_ge in Hge. rewrite Hge.
  destruct (isinstance e HTTPError); [discriminate|].
  destruct (isinstance e RequestException); [reflexivity|].
  destruct (isinstance e DecodeError); [discriminate|].
  destruct (isinstance e ValidationError); [discriminate|].
  destruct (isinstance e ValueError); [discriminate|reflexivity].
Qed.

Lemma iteration_raises url attempt retries w e :
  attempt_result (requests_get url 10 (http_calls w)) = Raises e ->
  iteration url attempt retries w =
  match except_clauses e attempt retries (w ++ [EvGet url 10]) with
  | (Returns _, w') => (Returns NextIteration, w')
  | (Raises e', w') => (Raises e', w')
  end.
Proof.
  unfold_iteration. intros H.
  destruct (requests_get url 10 (http_calls w)) as [r|e0].
  - rewrite H. reflexivity.
  - injection H as ->. reflexivity.
Qed.

Lemma iteration_fatal url attempt retries w e :
  attempt_result (requests_get url 10 (http_calls w)) = Raises e ->
  retried e = false ->
  iteration url attempt retries w = (Raises (surfaced e), w ++ [EvGet url 10]).
Proof.
  intros H Hf. rewrite (iteration_raises _ _ _ _ _ H).
  rewrite except_clauses_fatal by exact Hf. reflexivity.
Qed.

Lemma iteration_retry url attempt retries w e :
  attempt_result (requests_get url 10 (http_calls w)) = Raises e ->
  retried e = true -> attempt < retries - 1 ->
  iteration url attempt retries w =
  (Returns NextIteration, w ++ [EvGet url 10; EvSleep 2]).
Proof.
  intros H Hr Hlt. rewrite (iteration_raises _ _ _ _ _ H).
  rewrite except_clauses_retry by assumption.
  rewrite <- app_assoc. reflexivity.
Qed.

Lemma iteration_last url attempt retries w e :
  attempt_result (requests_get url 10 (http_calls w)) = Raises e ->
  retried e = true -> retries - 1 <= attempt ->
  iteration url attempt retries w = (Raises e, w ++ [EvGet url 10]).
Proof.
  intros H Hr Hge. rewrite (iteration_raises _ _ _ _ _ H).
  rewrite except_clauses_last by assumption. reflexivity.
Qed.

(** ** The loop *)

Lemma loop_cons attempt rest url retries w :
  for_attempt_in (attempt :: rest) url retries w =
  match iteration url attempt retries w with
  | (Returns (Return_ res), w') => (Returns (Some res), w')
  | (Returns NextIteration, w') => for_attempt_in rest url retries w'
  | (Raises e, w') => (Raises e, w')
  end.
Proof.
  unfold_loop.
  destruct (iteration url attempt retries w) as [[[res|]|e] w']; reflexivity.
Qed.

Lemma loop_returns attempt rest url retries w res :
  attempt_result (requests_get url 10 (http_calls w)) = Returns res ->
  for_attempt_in (attempt :: rest) url retries w =
  (Returns (Some res), w ++ [EvGet url 10]).
Proof.
  intros H. rewrite loop_cons, (iteration_returns _ _ _ _ _ H). reflexivity.
Qed.

Lemma loop_fatal attempt rest url retries w e :
  attempt_result (requests_get url 10 (http_calls w)) = Raises e ->
  retried e = false ->
  for_attempt_in (attempt :: rest) url retries w =
  (Raises (surfaced e), w ++ [EvGet url 10]).
Proof.
  intros H Hf. rewrite loop_cons, (iteration_fatal _ _ _ _ _ H Hf). reflexivity.
Qed.

Lemma loop_retry attempt rest url retries w e :
  attempt_result (requests_get url 10 (http_calls w)) = Raises e ->
  retried e = true -> attempt < retries - 1 ->
  for_attempt_in (attempt :: rest) url retries w =
  for_attempt_in rest url retries (w ++ [EvGet url 10; EvSleep 2]).
Proof.
  intros H Hr Hlt.
  rewrite loop_cons, (iteration_retry _ _ _ _ _ H Hr Hlt). reflexivity.
Qed.

Lemma loop_last attempt rest url retries w e :
  attempt_result (requests_get url 10 (http_calls w)) = Raises e ->
  retried e = true -> retries - 1 <= attempt ->
  for_attempt_in (attempt :: rest) url retries w =
  (Raises e, w ++ [EvGet url 10]).
Proof.
  intros H Hr Hge.
  rewrite loop_cons, (iteration_last _ _ _ _ _ H Hr Hge). reflexivity.
Qed.

(** Every pass starts with a request. *)
Lemma loop_starts_with_request attempt rest url retries w :
  exists c w', for_attempt_in (attempt :: rest) url retries w =
               (c, w ++ EvGet url 10 :: w').
Proof.
  revert attempt w. induction rest as [|next rest IH]; intros attempt w.
  - destruct (attempt_result (requests_get url 10 (http_calls w))) as [res|e] eqn:H.
    + rewrite (loop_returns _ _ _ _ _ _ H). eauto.
    + destruct (retried e) eqn:Hr.
      * destruct (Z.lt_ge_cases attempt (retries - 1)) as [Hlt|Hge].
        -- rewrite (loop_retry _ _ _ _ _ _ H Hr Hlt). cbn.
           exists (Returns None), [EvSleep 2]. reflexivity.
        -- rewrite (loop_last _ _ _ _ _ _ H Hr Hge). eauto.
      * rewrite (loop_fatal _ _ _ _ _ _ H Hr). eauto.
  - destruct (attempt_result (requests_get url 10 (http_calls w))) as [res|e] eqn:H.
    + rewrite (loop_returns _ _ _ _ _ _ H). eauto.
    + destruct (retried e) eqn:Hr.
      * destruct (Z.lt_ge_cases attempt (retries - 1)) as [Hlt|Hge].
        -- rewrite (loop_retry _ _ _ _ _ _ H Hr Hlt).
           destruct (IH next (w ++ [EvGet url 10; EvSleep 2])) as (c & w' & E).
           rewrite E. exists c, (EvSleep 2 :: EvGet url 10 :: w').
           rewrite <- app_assoc. reflexivity.
        -- rewrite (loop_last _ _ _ _ _ _ H Hr Hge). eauto.
      * rewrite (loop_fatal _ _ _ _ _ _ H Hr). eauto.
Qed.

End Loop.

(** ** Whole runs of the loop *)

Section Runs.

Variable ParseFromString : list byte -> string + FeedMessage.t.
Variable requests_get : string -> Z -> nat -> http_outcome.

Local Abbreviation process_response := (process_response ParseFromString).
Local Abbreviation attempt_result := (attempt_result ParseFromString).
Local Abbreviation for_attempt_in := (for_attempt_in ParseFromString requests_get).
Local Abbreviation run := (run ParseFromString requests_get).

(** When every remaining attempt ends in a retried exception, the loop issues
    one request per attempt, sleeps between two requests, and raises what the
    last attempt raised. *)
Lemma loop_exhausted url (err : nat -> exn) : forall m k w,
  (forall i, (i <= m)%nat ->
     attempt_result (requests_get url 10 (http_calls w + i)) = Raises (err (http_calls w + i)%nat)
     /\ retried (err (http_calls w + i)%nat) = true) ->
  for_attempt_in (map Z.of_nat (seq k (S m))) url (Z.of_nat (k + S m)) w =
  (Raises (err (http_calls w + m)%nat), w ++ attempts_trace url (S m)).
Proof.
  induction m as [|m IH]; intros k w H.
  - destruct (H O (Nat.le_refl _)) as [H0 Hr0].
    rewrite Nat.add_0_r in *.
    cbn [seq map]. rewrite (loop_last _ _ _ _ _ _ _ _ H0 Hr0) by lia.
    reflexivity.
  - destruct (H O (Nat.le_0_l _)) as [H0 Hr0].
    rewrite Nat.add_0_r in *.
    change (seq k (S (S m))) with (k :: seq (S k) (S m)). cbn [map].
    rewrite (loop_retry _ _ _ _ _ _ _ _ H0 Hr0) by lia.
    replace (Z.of_nat (k + S (S m))) with (Z.of_nat (S k + S m)) by lia.
    assert (Hc : http_calls (w ++ [EvGet url 10; EvSleep 2]) = S (http_calls w)).
    { rewrite http_calls_app. cbn. lia. }
    rewrite IH.
    + rewrite Hc. replace (S (http_calls w) + m)%nat with (http_calls w + S m)%nat by lia.
      rewrite <- app_assoc. reflexivity.
    + intros i Hi. rewrite Hc.
      replace (S (http_calls w) + i)%nat with (http_calls w + S i)%nat by lia.
      apply H. lia.
Qed.

Lemma run_exhausted url (err : nat -> exn) (n : nat) :
  (forall i, (i <= n)%nat ->
     attempt_result (requests_get url 10 i) = Raises (err i)
     /\ retried (err i) = true) ->
  run url (Z.of_nat (S n)) = (Raises (err n), attempts_trace url (S n)).
Proof.
  intros H. unfold_run.
  rewrite range_of_nat.
  change (Z.of_nat (S n)) with (Z.of_nat (0 + S n)).
  rewrite (loop_exhausted url err n 0 []); [reflexivity|].
  cbn. exact H.
Qed.

(** A returned result is what the response to the last request was turned
    into. *)
Lemma loop_success url retries : forall attempts w res w',
  for_attempt_in attempts url retries w = (Returns (Some res), w') ->
  exists r,
    requests_get url 10 (Nat.pred (http_calls w')) = Responds r
    /\ process_response r = Returns res.
Proof.
  induction attempts as [|attempt rest IH]; intros w res w' H.
  - cbn in H. unfold ret in H. discriminate.
  - destruct (attempt_result (requests_get url 10 (http_calls w))) as [res0|e] eqn:E.
    + rewrite (loop_returns _ _ _ _ _ _ _ _ E) in H.
      injection H as -> <-. rewrite http_calls_snoc_get. cbn.
      unfold_attempt_result.
      destruct (requests_get url 10 (http_calls w)) as [r|e0]; [|discriminate].
      exists r. split; [reflexivity|exact E].
    + destruct (retried e) eqn:Hr.
      * destruct (Z.lt_ge_cases attempt (retries - 1)) as [Hlt|Hge].
        -- rewrite (loop_retry _ _ _ _ _ _ _ _ E Hr Hlt) in H.
           exact (IH _ _ _ H).
        -- rewrite (loop_last _ _ _ _ _ _ _ _ E Hr Hge) in H. discriminate.
      * rewrite (loop_fatal _ _ _ _ _ _ _ _ E Hr) in H. discriminate.
Qed.

(** With at least one attempt, the last of which is attempt [retries - 1],
    the loop never runs out: it returns a result or raises. *)
Lemma loop_ends url : forall m k w,
  (exists e w', for_attempt_in (map Z.of_nat (seq k (S m))) url (Z.of_nat (k + S m)) w
                = (Raises e, w'))
  \/ (exists res w', for_attempt_in (map Z.of_nat (seq k (S m))) url (Z.of_nat (k + S m)) w
                     = (Returns (Some res), w')).
Proof.
  induction m as [|m IH]; intros k w.
  - cbn [seq map].
    destruct (attempt_result (requests_get url 10 (http_calls w))) as [res|e] eqn:E.
    + right. rewrite (loop_returns _ _ _ _ _ _ _ _ E). eauto.
    + left. destruct (retried e) eqn:Hr.
      * rewrite (loop_last _ _ _ _ _ _ _ _ E Hr) by lia. eauto.
      * rewrite (loop_fatal _ _ _ _ _ _ _ _ E Hr). eauto.
  - change (seq k (S (S m))) with (k :: seq (S k) (S m)). cbn [map].
    destruct (attempt_result (requests_get url 10 (http_calls w))) as [res|e] eqn:E.
    + right. rewrite (loop_returns _ _ _ _ _ _ _ _ E). eauto.
    + destruct (retried e) eqn:Hr.
      * rewrite (loop_retry _ _ _ _ _ _ _ _ E Hr) by lia.
        replace (Z.of_nat (k + S (S m))) with (Z.of_nat (S k + S m)) by lia.
        apply IH.
      * left. rewrite (loop_fatal _ _ _ _ _ _ _ _ E Hr). eauto.
Qed.

Lemma run_ends url retries :
  0 < retries ->
  (exists e w, run url retries = (Raises e, w))
  \/ (exists res w, run url retries = (Returns (Some res), w)).
Proof.
  intros H. unfold_run. unfold range.
  destruct (Z.to_nat retries) as [|m] eqn:E; [lia|].
  replace retries with (Z.of_nat (0 + S m)) by lia.
  apply loop_ends.
Qed.

(** The first attempt of a run. *)
Lemma run_first url retries :
  0 < retries ->
  run url retries =
  for_attempt_in (0 :: map Z.of_nat (seq 1 (Nat.pred (Z.to_nat retries)))) url retries [].
Proof.
  intros H. unfold_run. unfold range.
  destruct (Z.to_nat retries) as [|m] eqn:E; [lia|]. reflexivity.
Qed.

End Runs.

(** ** The [try] block after the HTTP call *)

Section TryBlock.

Variable ParseFromString : list byte -> string + FeedMessage.t.

Local Abbreviation process_response := (process_response ParseFromString).

Lemma option_string_eqb_eq (a b : option string) :
  option_string_eqb a b = true <-> a = b.
Proof.
  destruct a as [x|], b as [y|]; cbn; try (split; congruence).
  rewrite String.eqb_eq. split; congruence.
Qed.

Lemma process_response_content_type (r : Response) :
  headers_get (headers r) "Content-Type" <> Some REQUIRED_CONTENT_TYPE ->
  process_response r =
  Raises (mk_exn ValueError
            ("Unexpected content type: "
             ++ format_optional (headers_get (headers r) "Content-Type"))%string).
Proof.
  intros H. unfold_process_response.
  destruct (option_string_eqb _ _) eqn:E; [|reflexivity].
  apply option_string_eqb_eq in E. contradiction.
Qed.

Lemma process_response_empty (r : Response) :
  headers_get (headers r) "Content-Type" = Some REQUIRED_CONTENT_TYPE ->
  content r = [] ->
  process_response r = Raises empty_body_error.
Proof.
  intros Hct Hbody. unfold_process_response.
  rewrite Hct, Hbody. reflexivity.
Qed.

Lemma process_response_decoded (r : Response) (feed : FeedMessage.t) :
  headers_get (headers r) "Content-Type" = Some REQUIRED_CONTENT_TYPE ->
  content r <> [] ->
  ParseFromString (content r) = inr feed ->
  process_response r = extract feed.
Proof.
  intros Hct Hbody Hparse.
  unfold_process_response.
  rewrite Hct, Hparse.
  destruct (content r); [contradiction|reflexivity].
Qed.

Lemma process_response_returns (r : Response) (res : GTFSRTDataModel.t) :
  process_response r = Returns res ->
  headers_get (headers r) "Content-Type" = Some REQUIRED_CONTENT_TYPE
  /\ content r <> []
  /\ exists feed, ParseFromString (content r) = inr feed /\ extract feed = Returns res.
Proof.
  unfold_process_response.
  destruct (option_string_eqb _ _) eqn:E; cbn; [|discriminate].
  apply option_string_eqb_eq in E.
  destruct (content r) as [|b bs] eqn:Hbody; cbn; [discriminate|].
  destruct (ParseFromString (b :: bs)) as [msg|feed] eqn:Hparse; cbn; [discriminate|].
  intros H. repeat split; [exact E|discriminate|eauto].
Qed.

(** The status code is logged and never looked at. *)
Lemma process_response_ignores_status (status : Z) (r : Response) :
  process_response (mk_Response status (headers r) (content r)) = process_response r.
Proof. reflexivity. Qed.

End TryBlock.

(** ** The entity loop *)

Lemma validate_raises (d : vehicle_data.t) (e : exn) :
  VehiclePositionModel_validate d = Raises e -> e = validation_error.
Proof.
  unfold VehiclePositionModel_validate.
  destruct (validate_List_dict _); [discriminate|congruence].
Qed.

Lemma process_entity_no_vehicle feed result entity :
  has_vehicle entity = false ->
  exists result',
    process_entity feed result entity = Returns result'
    /\ GTFSRTDataModel.vehicle result' = GTFSRTDataModel.vehicle result.
Proof.
  unfold has_vehicle, process_entity. intros ->. cbn.
  eexists. split; [reflexivity|].
  destruct (HasField (FeedEntity.trip_update entity)),
           (HasField (FeedEntity.alert entity)); reflexivity.
Qed.

Lemma process_entity_vehicle feed result entity validated :
  has_vehicle entity = true ->
  VehiclePositionModel_validate (build_vehicle_data feed entity) = Returns validated ->
  exists result',
    process_entity feed result entity = Returns result'
    /\ GTFSRTDataModel.vehicle result' = Some validated.
Proof.
  unfold has_vehicle, process_entity. intros -> ->. cbn.
  eexists. split; [reflexivity|].
  destruct (HasField (FeedEntity.trip_update entity)),
           (HasField (FeedEntity.alert entity)); reflexivity.
Qed.

Lemma process_entity_invalid feed result entity e :
  has_vehicle entity = true ->
  VehiclePositionModel_validate (build_vehicle_data feed entity) = Raises e ->
  process_entity feed result entity = Raises validation_error.
Proof.
  unfold has_vehicle, process_entity. intros -> H.
  rewrite H. cbn. rewrite (validate_raises _ _ H). reflexivity.
Qed.

(** Whatever the loop raises is a validation error. *)
Lemma process_entities_raises feed : forall entities result e,
  process_entities feed result entities = Raises e -> e = validation_error.
Proof.
  induction entities as [|entity rest IH]; intros result e H; [discriminate|].
  cbn in H. destruct (has_vehicle entity) eqn:Hv.
  - destruct (VehiclePositionModel_validate (build_vehicle_data feed entity))
      as [validated|x] eqn:Hval.
    + destruct (process_entity_vehicle feed result entity validated Hv Hval)
        as (r' & E & _).
      rewrite E in H. cbn in H. exact (IH _ _ H).
    + rewrite (process_entity_invalid feed result entity x Hv Hval) in H.
      cbn in H. congruence.
  - destruct (process_entity_no_vehicle feed result entity Hv) as (r' & E & _).
    rewrite E in H. cbn in H. exact (IH _ _ H).
Qed.

(** A vehicle entity that the schema rejects makes the loop raise. *)
Lemma process_entities_invalid feed : forall entities result entity,
  In entity entities -> has_vehicle entity = true ->
  ~ passes_validation feed entity ->
  process_entities feed result entities = Raises validation_error.
Proof.
  induction entities as [|first rest IH]; intros result entity Hin Hv Hbad;
    [contradiction|].
  cbn [process_entities].
  destruct (process_entity feed result first) as [r'|x] eqn:E; cbn.
  - destruct Hin as [->|Hin].
    + exfalso. unfold has_vehicle in Hv. unfold process_entity in E. rewrite Hv in E.
      destruct (VehiclePositionModel_validate (build_vehicle_data feed entity))
        as [validated|y] eqn:Hval; [|discriminate].
      apply Hbad. exists validated. exact Hval.
    + exact (IH r' entity Hin Hv Hbad).
  - f_equal. apply (process_entities_raises feed [first] result). cbn.
    rewrite E. reflexivity.
Qed.

(** When the loop returns, every vehicle entity passed validation, and the
    vehicle slot holds the validated record of the last of them (or what it
    held before, when there is none). *)
Lemma process_entities_returns feed : forall entities result result',
  process_entities feed result entities = Returns result' ->
  Forall (passes_validation feed) (filter has_vehicle entities)
  /\ (filter has_vehicle entities = [] ->
      GTFSRTDataModel.vehicle result' = GTFSRTDataModel.vehicle result)
  /\ (filter has_vehicle entities <> [] ->
      forall d, exists validated,
        VehiclePositionModel_validate
          (build_vehicle_data feed (last (filter has_vehicle entities) d))
        = Returns validated
        /\ GTFSRTDataModel.vehicle result' = Some validated).
Proof.
  induction entities as [|entity rest IH]; intros result result' H.
  - cbn in H. injection H as <-. cbn. repeat split; [constructor|congruence].
  - cbn [process_entities] in H. cbn [filter].
    destruct (has_vehicle entity) eqn:Hv.
    + destruct (VehiclePositionModel_validate (build_vehicle_data feed entity))
        as [validated|x] eqn:Hval.
      * destruct (process_entity_vehicle feed result entity validated Hv Hval)
          as (r1 & E & Hslot).
        rewrite E in H. cbn in H.
        destruct (IH _ _ H) as (Hall & Hnone & Hsome).
        split; [|split].
        -- constructor; [exists validated; exact Hval|exact Hall].
        -- discriminate.
        -- intros _ d. destruct (filter has_vehicle rest) as [|next more] eqn:Hf.
           ++ cbn. exists validated. split; [exact Hval|].
              rewrite (Hnone eq_refl). exact Hslot.
           ++ change (last (entity :: next :: more) d) with (last (next :: more) d).
              apply Hsome. discriminate.
      * rewrite (process_entity_invalid feed result entity x Hv Hval) in H.
        discriminate.
    + destruct (process_entity_no_vehicle feed result entity Hv) as (r1 & E & Hslot).
      rewrite E in H. cbn in H.
      destruct (IH _ _ H) as (Hall & Hnone & Hsome).
      split; [exact Hall|split].
      * intros Hf. rewrite (Hnone Hf). exact Hslot.
      * exact Hsome.
Qed.

(** When every vehicle entity passes validation, the loop returns. *)
Lemma process_entities_total feed : forall entities result,
  Forall (passes_validation feed) (filter has_vehicle entities) ->
  exists result', process_entities feed result entities = Returns result'.
Proof.
  induction entities as [|entity rest IH]; intros result Hall.
  - cbn. eauto.
  - cbn [process_entities]. cbn [filter] in Hall.
    destruct (has_vehicle entity) eqn:Hv.
    + inversion Hall as [|? ? [validated Hval] Hrest]; subst.
      destruct (process_entity_vehicle feed result entity validated Hv Hval)
        as (r1 & E & _).
      rewrite E. cbn. apply IH. exact Hrest.
    + destruct (process_entity_no_vehicle feed result entity Hv) as (r1 & E & _).
      rewrite E. cbn. apply IH. exact Hall.
Qed.

Lemma extract_unfold feed :
  extract feed = process_entities feed initial_result (FeedMessage.entity feed).
Proof.
  unfold extract, GTFSRTDataModel_validate, model_dump.
  destruct (process_entities _ _ _); reflexivity.
Qed.

Lemma extract_total feed :
  Forall (passes_validation feed) (vehicle_entities feed) ->
  exists result, extract feed = Returns result.
Proof.
  rewrite extract_unfold. apply process_entities_total.
Qed.

Lemma extract_invalid feed entity :
  In entity (vehicle_entities feed) -> ~ passes_validation feed entity ->
  extract feed = Raises validation_error.
Proof.
  unfold vehicle_entities. intros Hin Hbad.
  apply filter_In in Hin. destruct Hin as [Hin Hv].
  rewrite extract_unfold.
  exact (process_entities_invalid feed _ _ entity Hin Hv Hbad).
Qed.

(** ** Retried and fatal first attempts *)

Section FirstAttempt.

Variable ParseFromString : list byte -> string + FeedMessage.t.
Variable requests_get : string -> Z -> nat -> http_outcome.

Local Abbreviation attempt_result := (attempt_result ParseFromString).
Local Abbreviation for_attempt_in := (for_attempt_in ParseFromString requests_get).
Local Abbreviation run := (run ParseFromString requests_get).

Lemma run_fatal url retries e :
  0 < retries ->
  attempt_result (requests_get url 10 O) = Raises e ->
  retried e = false ->
  run url retries = (Raises (surfaced e), [EvGet url 10]).
Proof.
  intros Hpos H Hf. rewrite run_first by exact Hpos.
  apply (loop_fatal ParseFromString requests_get 0 _ url retries [] e H Hf).
Qed.

Lemma run_returns url retries res :
  0 < retries ->
  attempt_result (requests_get url 10 O) = Returns res ->
  run url retries = (Returns (Some res), [EvGet url 10]).
Proof.
  intros Hpos H. rewrite run_first by exact Hpos.
  apply (loop_returns ParseFromString requests_get 0 _ url retries [] res H).
Qed.

Lemma run_single_attempt url e :
  attempt_result (requests_get url 10 O) = Raises e ->
  retried e = true ->
  run url 1 = (Raises e, [EvGet url 10]).
Proof.
  intros H Hr.
  apply (loop_last ParseFromString requests_get 0 [] url 1 [] e H Hr). lia.
Qed.

Lemma run_retries_first url retries e :
  1 < retries ->
  attempt_result (requests_get url 10 O) = Raises e ->
  retried e = true ->
  exists c w,
    run url retries = (c, EvGet url 10 :: EvSleep 2 :: EvGet url 10 :: w).
Proof.
  intros Hgt H Hr. rewrite run_first by lia.
  rewrite (loop_retry ParseFromString requests_get 0 _ url retries [] e H Hr) by lia.
  destruct (Nat.pred (Z.to_nat retries)) as [|m] eqn:E; [lia|].
  cbn [seq map].
  destruct (loop_starts_with_request ParseFromString requests_get
              (Z.of_nat 1) (map Z.of_nat (seq 2 m)) url retries
              ([] ++ [EvGet url 10; EvSleep 2])) as (c & w & Hw).
  exists c, w. rewrite Hw. reflexivity.
Qed.

End FirstAttempt.

(** ** Statements of the design document *)

(** C4.  A response whose [Content-Type] is not [application/x-protobuf]
    (or is missing) ends the invocation at once with the content-type
    [ValueError]: at whatever pass of the loop it arrives, no sleep and no
    further request follow; when it answers the first request, the invocation
    has issued exactly one request. *)
Theorem content_type_mismatch_is_fatal
  (ParseFromString : list byte -> string + FeedMessage.t)
  (requests_get : string -> Z -> nat -> http_outcome)
  (url : string) (retries : Z) (r : Response) :
  headers_get (headers r) "Content-Type" <> Some "application/x-protobuf"%string ->
  let error :=
    mk_exn ValueError
      ("Unexpected content type: "
       ++ format_optional (headers_get (headers r) "Content-Type"))%string in
  (forall attempt rest w,
     requests_get url 10 (http_calls w) = Responds r ->
     for_attempt_in ParseFromString requests_get (attempt :: rest) url retries w
     = (Raises error, w ++ [EvGet url 10]))
  /\ (0 < retries ->
      requests_get url 10 O = Responds r ->
      run ParseFromString requests_get url retries = (Raises error, [EvGet url 10])).
Proof.
  intros Hct error.
  assert (Hres : process_response ParseFromString r = Raises error)
    by exact (process_response_content_type ParseFromString r Hct).
  split.
  - intros attempt rest w Hget.
    apply (loop_fatal ParseFromString requests_get attempt rest url retries w error).
    + unfold attempt_result. rewrite Hget. exact Hres.
    + reflexivity.
  - intros Hpos Hget.
    apply (run_fatal ParseFromString requests_get url retries error Hpos).
    + unfold attempt_result. rewrite Hget. exact Hres.
    + reflexivity.
Qed.

Lemma content_type_mismatch_is_fatal_witness :
  run Fixtures.ParseFromString
    (Fixtures.always (Responds Fixtures.html_response)) Fixtures.url 3
  = (Raises (mk_exn ValueError "Unexpected content type: text/html"),
     [EvGet Fixtures.url 10]).
Proof.
  apply (content_type_mismatch_is_fatal Fixtures.ParseFromString
           (Fixtures.always (Responds Fixtures.html_response))
           Fixtures.url 3 Fixtures.html_response).
  - cbn. discriminate.
  - lia.
  - reflexivity.
Defined.

(** C1, as the code has it.  An empty body under the right content type
    raises the plain exception "No valid GTFS RT data found", which the last
    [except] clause retries: it is surfaced without a further request only on
    the last permitted attempt.  With one permitted attempt exactly one
    request is issued; with more, a two-second sleep and a second request
    follow; and when every response is empty, the invocation issues one
    request per permitted attempt before the exception is surfaced. *)
Theorem empty_body_is_retried
  (ParseFromString : list byte -> string + FeedMessage.t)
  (requests_get : string -> Z -> nat -> http_outcome)
  (url : string) (retries : Z) (r : Response) :
  0 < retries ->
  requests_get url 10 O = Responds r ->
  headers_get (headers r) "Content-Type" = Some "application/x-protobuf"%string ->
  content r = [] ->
  (retries = 1 ->
   run ParseFromString requests_get url retries
   = (Raises empty_body_error, [EvGet url 10]))
  /\ (1 < retries ->
      exists c w,
        run ParseFromString requests_get url retries
        = (c, EvGet url 10 :: EvSleep 2 :: EvGet url 10 :: w))
  /\ ((forall n, exists r',
         requests_get url 10 n = Responds r'
         /\ headers_get (headers r') "Content-Type" = Some "application/x-protobuf"%string
         /\ content r' = []) ->
      run ParseFromString requests_get url retries
      = (Raises empty_body_error, attempts_trace url (Z.to_nat retries))).
Proof.
  intros Hpos Hget Hct Hbody.
  assert (H0 : attempt_result ParseFromString (requests_get url 10 O)
               = Raises empty_body_error).
  { unfold attempt_result. rewrite Hget.
    exact (process_response_empty ParseFromString r Hct Hbody). }
  split; [|split].
  - intros ->. exact (run_single_attempt _ _ url _ H0 eq_refl).
  - intros Hgt. exact (run_retries_first _ _ url retries _ Hgt H0 eq_refl).
  - intros Hall.
    destruct (Z.to_nat retries) as [|n] eqn:E; [lia|].
    replace retries with (Z.of_nat (S n)) by lia.
    apply (run_exhausted ParseFromString requests_get url (fun _ => empty_body_error) n).
    intros i _. split; [|reflexivity].
    destruct (Hall i) as (r' & Hget' & Hct' & Hbody').
    unfold attempt_result. rewrite Hget'.
    exact (process_response_empty ParseFromString r' Hct' Hbody').
Qed.

Lemma empty_body_is_retried_witness :
  run Fixtures.ParseFromString
    (Fixtures.always (Responds (Fixtures.response 200 []))) Fixtures.url 2
  = (Raises empty_body_error,
     [EvGet Fixtures.url 10; EvSleep 2; EvGet Fixtures.url 10]).
Proof.
  apply (empty_body_is_retried Fixtures.ParseFromString
           (Fixtures.always (Responds (Fixtures.response 200 [])))
           Fixtures.url 2 (Fixtures.response 200 [])).
  - lia.
  - reflexivity.
  - reflexivity.
  - reflexivity.
  - intros n. exists (Fixtures.response 200 []). repeat split.
Defined.

(** C1 as stated fails: under the default of three attempts, an empty body
    with status 200 and the right content type leads to three requests and
    two sleeps, not to one request. *)
Lemma empty_body_single_request_counterexample :
  let r := Fixtures.response 200 [] in
  let out :=
    run Fixtures.ParseFromString (Fixtures.always (Responds r))
      Fixtures.url default_retries in
  status_code r = 200
  /\ headers_get (headers r) "Content-Type" = Some "application/x-protobuf"%string
  /\ content r = []
  /\ out = (Raises empty_body_error,
            [EvGet Fixtures.url 10; EvSleep 2; EvGet Fixtures.url 10;
             EvSleep 2; EvGet Fixtures.url 10])
  /\ http_calls (snd out) = 3%nat
  /\ http_calls (snd out) <> 1%nat
  /\ sleeps (snd out) <> 0%nat.
Proof.
  cbv zeta. repeat split; try reflexivity; vm_compute; discriminate.
Qed.

(** C2, as the code has it.  [InvalidURL] is a request exception, and the
    clause for request exceptions comes before the one for [ValueError]: an
    invalid URL is retried like a network error and surfaced, unchanged, only
    on the last permitted attempt. *)
Theorem invalid_url_is_retried
  (ParseFromString : list byte -> string + FeedMessage.t)
  (requests_get : string -> Z -> nat -> http_outcome)
  (url : string) (retries : Z) (e : exn) :
  0 < retries ->
  requests_get url 10 O = Fails e ->
  exc_type e = InvalidURL ->
  (retries = 1 ->
   run ParseFromString requests_get url retries = (Raises e, [EvGet url 10]))
  /\ (1 < retries ->
      exists c w,
        run ParseFromString requests_get url retries
        = (c, EvGet url 10 :: EvSleep 2 :: EvGet url 10 :: w))
  /\ ((forall n, exists e',
         requests_get url 10 n = Fails e' /\ exc_type e' = InvalidURL) ->
      exists e',
        requests_get url 10 (Nat.pred (Z.to_nat retries)) = Fails e'
        /\ exc_type e' = InvalidURL
        /\ run ParseFromString requests_get url retries
           = (Raises e', attempts_trace url (Z.to_nat retries))).
Proof.
  intros Hpos Hget Hcls.
  assert (H0 : attempt_result ParseFromString (requests_get url 10 O) = Raises e).
  { unfold attempt_result. rewrite Hget. reflexivity. }
  pose proof (retried_InvalidURL e Hcls) as Hr.
  split; [|split].
  - intros ->. exact (run_single_attempt _ _ url _ H0 Hr).
  - intros Hgt. exact (run_retries_first _ _ url retries _ Hgt H0 Hr).
  - intros Hall.
    destruct (Z.to_nat retries) as [|n] eqn:E; [lia|].
    replace retries with (Z.of_nat (S n)) by lia. cbn [Nat.pred].
    destruct (Hall n) as (e' & Hget' & Hcls').
    exists e'. split; [exact Hget'|split; [exact Hcls'|]].
    set (err := fun i => match requests_get url 10 i with
                         | Fails x => x
                         | Responds _ => e
                         end).
    replace e' with (err n) by (unfold err; rewrite Hget'; reflexivity).
    apply (run_exhausted ParseFromString requests_get url err n).
    intros i _. destruct (Hall i) as (x & Hx & Hxc).
    unfold attempt_result, err. rewrite Hx.
    split; [reflexivity|exact (retried_InvalidURL x Hxc)].
Qed.

Lemma invalid_url_is_retried_witness :
  exists c w,
    run Fixtures.ParseFromString
      (Fixtures.always (Fails Fixtures.invalid_url_error)) Fixtures.url 3
    = (c, EvGet Fixtures.url 10 :: EvSleep 2 :: EvGet Fixtures.url 10 :: w).
Proof.
  apply (invalid_url_is_retried Fixtures.ParseFromString
           (Fixtures.always (Fails Fixtures.invalid_url_error))
           Fixtures.url 3 Fixtures.invalid_url_error).
  - lia.
  - reflexivity.
  - reflexivity.
  - lia.
Defined.

(** C2 as stated fails: under the default of three attempts, a client that
    reports an invalid URL is called three times, with two sleeps between. *)
Lemma invalid_url_never_retried_counterexample :
  let out :=
    run Fixtures.ParseFromString
      (Fixtures.always (Fails Fixtures.invalid_url_error))
      Fixtures.url default_retries in
  exc_type Fixtures.invalid_url_error = InvalidURL
  /\ out = (Raises Fixtures.invalid_url_error,
            [EvGet Fixtures.url 10; EvSleep 2; EvGet Fixtures.url 10;
             EvSleep 2; EvGet Fixtures.url 10])
  /\ http_calls (snd out) = 3%nat
  /\ http_calls (snd out) <> 1%nat
  /\ sleeps (snd out) <> 0%nat.
Proof.
  cbv zeta. repeat split; try reflexivity; vm_compute; discriminate.
Qed.

(** C5.  With three permitted attempts and a client whose every call raises
    a network error, the invocation issues exactly three requests, sleeps two
    seconds between two consecutive requests, and raises the very exception
    of the third call. *)
Theorem network_errors_exhaust_three_attempts
  (ParseFromString : list byte -> string + FeedMessage.t)
  (requests_get : string -> Z -> nat -> http_outcome)
  (url : string) :
  (forall n, (n < 3)%nat ->
     exists e, requests_get url 10 n = Fails e /\ is_network_error e = true) ->
  exists e,
    requests_get url 10 2%nat = Fails e
    /\ run ParseFromString requests_get url 3
       = (Raises e,
          [EvGet url 10; EvSleep 2; EvGet url 10; EvSleep 2; EvGet url 10]).
Proof.
  intros Hall.
  destruct (Hall 2%nat) as (e2 & Hget2 & Hnet2); [lia|].
  exists e2. split; [exact Hget2|].
  set (err := fun i => match requests_get url 10 i with
                       | Fails x => x
                       | Responds _ => e2
                       end).
  replace e2 with (err 2%nat) by (unfold err; rewrite Hget2; reflexivity).
  apply (run_exhausted ParseFromString requests_get url err 2).
  intros i Hi. destruct (Hall i) as (x & Hx & Hnet); [lia|].
  unfold attempt_result, err. rewrite Hx.
  split; [reflexivity|exact (retried_network x Hnet)].
Qed.

Lemma network_errors_exhaust_three_attempts_witness :
  exists e,
    Fixtures.always (Fails Fixtures.timeout_error) Fixtures.url 10 2%nat = Fails e
    /\ run Fixtures.ParseFromString
         (Fixtures.always (Fails Fixtures.timeout_error)) Fixtures.url 3
       = (Raises e,
          [EvGet Fixtures.url 10; EvSleep 2; EvGet Fixtures.url 10;
           EvSleep 2; EvGet Fixtures.url 10]).
Proof.
  apply (network_errors_exhaust_three_attempts Fixtures.ParseFromString
           (Fixtures.always (Fails Fixtures.timeout_error)) Fixtures.url).
  intros n _. exists Fixtures.timeout_error. split; reflexivity.
Defined.

(** C3, where the code departs from it.  The status code is never examined:
    a response with status 500, the required content type and a body that
    decodes to a valid feed is processed, and its result returned, exactly as
    under status 200. *)
Theorem non_2xx_status_is_processed :
  let r := Fixtures.response 500 [x02] in
  status_code r = 500
  /\ (exists result,
        extract Fixtures.feed_two = Returns result
        /\ run Fixtures.ParseFromString (Fixtures.always (Responds r))
             Fixtures.url default_retries
           = (Returns (Some result), [EvGet Fixtures.url 10]))
  /\ run Fixtures.ParseFromString (Fixtures.always (Responds r))
       Fixtures.url default_retries
     = run Fixtures.ParseFromString
         (Fixtures.always (Responds (Fixtures.response 200 [x02])))
         Fixtures.url default_retries.
Proof.
  cbv zeta. split; [reflexivity|split].
  - eexists. split; reflexivity.
  - reflexivity.
Qed.

(** ** What a returned result was built from *)

Lemma run_success_feed
  (ParseFromString : list byte -> string + FeedMessage.t)
  (requests_get : string -> Z -> nat -> http_outcome)
  (url : string) (retries : Z) (res : GTFSRTDataModel.t) (w : world) :
  run ParseFromString requests_get url retries = (Returns (Some res), w) ->
  exists r feed,
    requests_get url 10 (Nat.pred (http_calls w)) = Responds r
    /\ headers_get (headers r) "Content-Type" = Some REQUIRED_CONTENT_TYPE
    /\ content r <> []
    /\ ParseFromString (content r) = inr feed
    /\ extract feed = Returns res.
Proof.
  intros H.
  destruct (loop_success ParseFromString requests_get url retries _ _ _ _ H)
    as (r & Hget & Hres).
  destruct (process_response_returns ParseFromString r res Hres)
    as (Hct & Hbody & feed & Hparse & Hextract).
  exists r, feed. auto.
Qed.

Lemma extract_returns feed res :
  extract feed = Returns res ->
  Forall (passes_validation feed) (vehicle_entities feed)
  /\ (vehicle_entities feed = [] -> GTFSRTDataModel.vehicle res = None)
  /\ (vehicle_entities feed <> [] ->
      forall d, exists validated,
        VehiclePositionModel_validate
          (build_vehicle_data feed (last (vehicle_entities feed) d))
        = Returns validated
        /\ GTFSRTDataModel.vehicle res = Some validated).
Proof.
  rewrite extract_unfold. intros H.
  exact (process_entities_returns feed _ _ _ H).
Qed.

Lemma validate_keeps_timestamp d validated :
  VehiclePositionModel_validate d = Returns validated ->
  VehiclePositionModel.timestamp validated = vehicle_data.timestamp d.
Proof.
  unfold VehiclePositionModel_validate.
  destruct (validate_List_dict _); [|discriminate].
  intros H. injection H as <-. reflexivity.
Qed.

(** No field of the mapped record is ever absent, whatever the wire entity
    has set. *)
Lemma mapped_fields_never_absent feed entity validated :
  VehiclePositionModel_validate (build_vehicle_data feed entity) = Returns validated ->
  VehiclePositionModel.trip validated <> None
  /\ VehiclePositionModel.vehicle validated <> None
  /\ VehiclePositionModel.position validated <> None
  /\ VehiclePositionModel.current_stop_sequence validated <> None
  /\ VehiclePositionModel.stop_id validated <> None
  /\ VehiclePositionModel.current_status validated <> None
  /\ VehiclePositionModel.timestamp validated <> None
  /\ VehiclePositionModel.congestion_level validated <> None
  /\ VehiclePositionModel.occupancy_status validated <> None
  /\ VehiclePositionModel.occupancy_percentage validated <> None.
Proof.
  unfold VehiclePositionModel_validate.
  destruct (validate_List_dict _); [|discriminate].
  intros H. injection H as <-. cbn. repeat split; discriminate.
Qed.

(** C7, where the code departs from it.  For a vehicle entity in which
    nothing is set, the mapped record has the schema defaults, zero and the
    empty string, in every field, and its three sub-records are present and
    filled with defaults; it is the same record as for an entity whose trip
    sub-message is present and empty.  The returned result carries these
    values. *)
Theorem absent_fields_read_as_defaults :
  let absent := Fixtures.bare_vehicle "1" in
  let d := build_vehicle_data Fixtures.feed_one absent in
  FeedEntity.vehicle absent = Some VehiclePosition.unset
  /\ vehicle_data.current_stop_sequence d = Some 0
  /\ vehicle_data.stop_id d = Some ""%string
  /\ vehicle_data.occupancy_percentage d = Some 0
  /\ vehicle_data.trip d
     = TripModel.mk (Some ""%string) (Some ""%string) (Some 0)
         (Some ""%string) (Some ""%string) (Some 0)
  /\ vehicle_data.vehicle d
     = VehicleInfoModel.mk (Some ""%string) (Some ""%string) (Some ""%string)
  /\ vehicle_data.position d
     = PositionModel.mk (Some PrimFloat.zero) (Some PrimFloat.zero)
         (Some PrimFloat.zero) (Some PrimFloat.zero) (Some PrimFloat.zero)
  /\ build_vehicle_data Fixtures.feed_one (Fixtures.empty_trip_vehicle "1") = d
  /\ exists v,
       run Fixtures.ParseFromString
         (Fixtures.always (Responds (Fixtures.response 200 [x01])))
         Fixtures.url default_retries
       = (Returns (Some (GTFSRTDataModel.mk (Some v) None None)),
          [EvGet Fixtures.url 10])
       /\ VehiclePositionModel.trip v = Some (vehicle_data.trip d)
       /\ VehiclePositionModel.stop_id v = Some ""%string
       /\ VehiclePositionModel.current_stop_sequence v = Some 0.
Proof.
  cbv zeta. repeat split. eexists. repeat split.
Qed.

(** C8, as the code has it.  With at least one permitted attempt: a feed in
    which some vehicle entity fails validation ends the invocation with the
    validation error at the pass that decoded it, whatever attempts remain,
    with no sleep and no further request; and the invocation either raises or
    returns the result extracted from the feed of its last response, every
    vehicle entity of which passed validation. *)
Theorem validation_failure_aborts
  (ParseFromString : list byte -> string + FeedMessage.t)
  (requests_get : string -> Z -> nat -> http_outcome)
  (url : string) (retries : Z) :
  0 < retries ->
  (forall attempt rest w r feed entity,
     requests_get url 10 (http_calls w) = Responds r ->
     headers_get (headers r) "Content-Type" = Some "application/x-protobuf"%string ->
     content r <> [] ->
     ParseFromString (content r) = inr feed ->
     In entity (vehicle_entities feed) ->
     ~ passes_validation feed entity ->
     exc_type validation_error = ValidationError
     /\ for_attempt_in ParseFromString requests_get (attempt :: rest) url retries w
        = (Raises validation_error, w ++ [EvGet url 10]))
  /\ ((exists e w, run ParseFromString requests_get url retries = (Raises e, w))
      \/ (exists res w r feed,
            run ParseFromString requests_get url retries = (Returns (Some res), w)
            /\ requests_get url 10 (Nat.pred (http_calls w)) = Responds r
            /\ ParseFromString (content r) = inr feed
            /\ extract feed = Returns res
            /\ Forall (passes_validation feed) (vehicle_entities feed))).
Proof.
  intros Hpos. split.
  - intros attempt rest w r feed entity Hget Hct Hbody Hparse Hin Hbad.
    split; [reflexivity|].
    apply (loop_fatal ParseFromString requests_get attempt rest url retries w
             validation_error); [|reflexivity].
    unfold attempt_result. rewrite Hget.
    rewrite (process_response_decoded ParseFromString r feed Hct Hbody Hparse).
    exact (extract_invalid feed entity Hin Hbad).
  - destruct (run_ends ParseFromString requests_get url retries Hpos)
      as [(e & w & H)|(res & w & H)].
    + left. eauto.
    + right.
      destruct (run_success_feed _ _ _ _ _ _ H)
        as (r & feed & Hget & _ & _ & Hparse & Hextract).
      exists res, w, r, feed.
      repeat split; try assumption.
      exact (proj1 (extract_returns feed res Hextract)).
Qed.

Lemma validation_failure_aborts_witness :
  exc_type validation_error = ValidationError
  /\ run Fixtures.ParseFromString
       (Fixtures.always (Responds (Fixtures.response 200 [x03])))
       Fixtures.url 3
     = (Raises validation_error, [EvGet Fixtures.url 10]).
Proof.
  refine (proj1 (validation_failure_aborts Fixtures.ParseFromString
                   (Fixtures.always (Responds (Fixtures.response 200 [x03])))
                   Fixtures.url 3 _)
            0 [1; 2] [] (Fixtures.response 200 [x03]) Fixtures.feed_train
            (Fixtures.train "2") _ _ _ _ _ _).
  - lia.
  - reflexivity.
  - reflexivity.
  - discriminate.
  - reflexivity.
  - cbn. auto.
  - intros [v Hv]. discriminate Hv.
Defined.

(** C8 as stated fails for an invocation with no permitted attempt: it
    issues no request, raises nothing and returns no result. *)
Lemma no_attempt_returns_nothing_counterexample :
  run Fixtures.ParseFromString
    (Fixtures.always (Responds (Fixtures.response 200 [x02]))) Fixtures.url 0
  = (Returns None, [])
  /\ (forall e w,
        run Fixtures.ParseFromString
          (Fixtures.always (Responds (Fixtures.response 200 [x02]))) Fixtures.url 0
        <> (Raises e, w))
  /\ (forall res w,
        run Fixtures.ParseFromString
          (Fixtures.always (Responds (Fixtures.response 200 [x02]))) Fixtures.url 0
        <> (Returns (Some res), w)).
Proof.
  repeat split; try reflexivity; intros; discriminate.
Qed.

Lemma build_ignores_vehicle_timestamp feed entity ts :
  build_vehicle_data feed (with_vehicle_timestamp entity ts)
  = build_vehicle_data feed entity.
Proof.
  unfold with_vehicle_timestamp.
  destruct entity as [id deleted tu [v|] al]; reflexivity.
Qed.

(** C9.  When an invocation returns a result, the vehicle record in it has
    the timestamp read from the header of the feed it was built from; so has
    the validated record of every vehicle entity of that feed; and the
    timestamp a vehicle entity carries itself plays no part in its record. *)
Theorem vehicle_timestamp_is_header_timestamp
  (ParseFromString : list byte -> string + FeedMessage.t)
  (requests_get : string -> Z -> nat -> http_outcome)
  (url : string) (retries : Z) (res : GTFSRTDataModel.t) (w : world)
  (r : Response) (feed : FeedMessage.t) :
  run ParseFromString requests_get url retries = (Returns (Some res), w) ->
  requests_get url 10 (Nat.pred (http_calls w)) = Responds r ->
  ParseFromString (content r) = inr feed ->
  let header_timestamp := read 0 (FeedHeader.timestamp (FeedMessage.header feed)) in
  (forall v,
     GTFSRTDataModel.vehicle res = Some v ->
     VehiclePositionModel.timestamp v = Some header_timestamp)
  /\ (forall entity,
        In entity (vehicle_entities feed) ->
        exists validated,
          VehiclePositionModel_validate (build_vehicle_data feed entity)
          = Returns validated
          /\ VehiclePositionModel.timestamp validated = Some header_timestamp)
  /\ (forall entity ts,
        build_vehicle_data feed (with_vehicle_timestamp entity ts)
        = build_vehicle_data feed entity).
Proof.
  intros Hrun Hget Hparse header_timestamp.
  destruct (run_success_feed _ _ _ _ _ _ Hrun)
    as (r' & feed' & Hget' & _ & _ & Hparse' & Hextract).
  rewrite Hget in Hget'. injection Hget' as <-.
  rewrite Hparse in Hparse'. injection Hparse' as <-.
  destruct (extract_returns feed res Hextract) as (Hall & Hnone & Hsome).
  split; [|split].
  - intros v Hv.
    destruct (vehicle_entities feed) as [|first more] eqn:Hents.
    + rewrite (Hnone eq_refl) in Hv. discriminate.
    + destruct (Hsome ltac:(discriminate) first) as (validated & Hval & Hslot).
      rewrite Hslot in Hv. injection Hv as <-.
      rewrite (validate_keeps_timestamp _ _ Hval). reflexivity.
  - intros entity Hin.
    rewrite Forall_forall in Hall.
    destruct (Hall entity Hin) as (validated & Hval).
    exists validated. split; [exact Hval|].
    rewrite (validate_keeps_timestamp _ _ Hval). reflexivity.
  - intros entity ts. apply build_ignores_vehicle_timestamp.
Qed.

Lemma vehicle_timestamp_is_header_timestamp_witness :
  exists res,
    run Fixtures.ParseFromString
      (Fixtures.always (Responds (Fixtures.response 200 [x02]))) Fixtures.url 3
    = (Returns (Some res), [EvGet Fixtures.url 10])
    /\ FeedHeader.timestamp Fixtures.header = Some 1700000000
    /\ forall v,
         GTFSRTDataModel.vehicle res = Some v ->
         VehiclePositionModel.timestamp v = Some 1700000000.
Proof.
  eexists. split; [reflexivity|]. split; [reflexivity|].
  refine (proj1 (vehicle_timestamp_is_header_timestamp Fixtures.ParseFromString
                   (Fixtures.always (Responds (Fixtures.response 200 [x02])))
                   Fixtures.url 3 _ [EvGet Fixtures.url 10]
                   (Fixtures.response 200 [x02]) Fixtures.feed_two _ _ _)).
  - reflexivity.
  - reflexivity.
  - reflexivity.
Defined.

(** C10.  When an invocation returns the result of a feed with two or more
    vehicle entities, the vehicle slot holds the validated record of the last
    vehicle entity in feed order and nothing of the earlier ones; every
    vehicle entity of the feed passed validation on the way. *)
Theorem last_vehicle_entity_wins
  (ParseFromString : list byte -> string + FeedMessage.t)
  (requests_get : string -> Z -> nat -> http_outcome)
  (url : string) (retries : Z) (res : GTFSRTDataModel.t) (w : world)
  (r : Response) (feed : FeedMessage.t) :
  run ParseFromString requests_get url retries = (Returns (Some res), w) ->
  requests_get url 10 (Nat.pred (http_calls w)) = Responds r ->
  ParseFromString (content r) = inr feed ->
  (2 <= List.length (vehicle_entities feed))%nat ->
  (forall d, exists validated,
     VehiclePositionModel_validate
       (build_vehicle_data feed (last (vehicle_entities feed) d))
     = Returns validated
     /\ GTFSRTDataModel.vehicle res = Some validated)
  /\ Forall (passes_validation feed) (vehicle_entities feed).
Proof.
  intros Hrun Hget Hparse Hlen.
  destruct (run_success_feed _ _ _ _ _ _ Hrun)
    as (r' & feed' & Hget' & _ & _ & Hparse' & Hextract).
  rewrite Hget in Hget'. injection Hget' as <-.
  rewrite Hparse in Hparse'. injection Hparse' as <-.
  destruct (extract_returns feed res Hextract) as (Hall & _ & Hsome).
  split; [|exact Hall].
  apply Hsome. intros E. rewrite E in Hlen. cbn in Hlen. lia.
Qed.

Lemma last_vehicle_entity_wins_witness :
  exists res validated,
    run Fixtures.ParseFromString
      (Fixtures.always (Responds (Fixtures.response 200 [x02]))) Fixtures.url 3
    = (Returns (Some res), [EvGet Fixtures.url 10])
    /\ vehicle_entities Fixtures.feed_two
       = [Fixtures.bus "1" "S1" 11; Fixtures.bus "2" "S2" 22]
    /\ VehiclePositionModel_validate
         (build_vehicle_data Fixtures.feed_two (Fixtures.bus "2" "S2" 22))
       = Returns validated
    /\ GTFSRTDataModel.vehicle res = Some validated
    /\ VehiclePositionModel.id validated = "2"%string
    /\ VehiclePositionModel.stop_id validated = Some "S2"%string.
Proof.
  eexists.
  destruct (proj1 (last_vehicle_entity_wins Fixtures.ParseFromString
                     (Fixtures.always (Responds (Fixtures.response 200 [x02])))
                     Fixtures.url 3 _ [EvGet Fixtures.url 10]
                     (Fixtures.response 200 [x02]) Fixtures.feed_two
                     eq_refl eq_refl eq_refl (le_n 2))
              (Fixtures.bus "1" "S1" 11)) as (validated & Hval & Hslot).
  exists validated. repeat split.
  - exact Hval.
  - exact Hslot.
  - cbn in Hval. injection Hval as <-. reflexivity.
  - cbn in Hval. injection Hval as <-. reflexivity.
Defined.

(** * Further properties of the code *)

(** ** The shape of every run *)

Lemma attempts_trace_retry url j :
  [EvGet url 10; EvSleep 2] ++ attempts_trace url (S j) = attempts_trace url (S (S j)).
Proof. reflexivity. Qed.

Section Shape.

Variable ParseFromString : list byte -> string + FeedMessage.t.
Variable requests_get : string -> Z -> nat -> http_outcome.

Local Abbreviation attempt_result := (attempt_result ParseFromString).
Local Abbreviation for_attempt_in := (for_attempt_in ParseFromString requests_get).
Local Abbreviation run := (run ParseFromString requests_get).

(** A loop whose last attempt is attempt [retries - 1] leaves a trace of at
    least one and at most as many attempts as it was given. *)
Lemma loop_trace_shape url : forall m k w,
  exists j,
    (j <= m)%nat
    /\ snd (for_attempt_in (map Z.of_nat (seq k (S m))) url (Z.of_nat (k + S m)) w)
       = w ++ attempts_trace url (S j).
Proof.
  induction m as [|m IH]; intros k w.
  - exists O. split; [lia|]. cbn [seq map].
    destruct (attempt_result (requests_get url 10 (http_calls w))) as [res|e] eqn:E.
    + rewrite (loop_returns _ _ _ _ _ _ _ _ E). reflexivity.
    + destruct (retried e) eqn:Hr.
      * rewrite (loop_last _ _ _ _ _ _ _ _ E Hr) by lia. reflexivity.
      * rewrite (loop_fatal _ _ _ _ _ _ _ _ E Hr). reflexivity.
  - change (seq k (S (S m))) with (k :: seq (S k) (S m)). cbn [map].
    destruct (attempt_result (requests_get url 10 (http_calls w))) as [res|e] eqn:E.
    + exists O. split; [lia|]. rewrite (loop_returns _ _ _ _ _ _ _ _ E). reflexivity.
    + destruct (retried e) eqn:Hr.
      * rewrite (loop_retry _ _ _ _ _ _ _ _ E Hr) by lia.
        replace (Z.of_nat (k + S (S m))) with (Z.of_nat (S k + S m)) by lia.
        destruct (IH (S k) (w ++ [EvGet url 10; EvSleep 2])) as (j & Hj & Hshape).
        exists (S j). split; [lia|].
        rewrite Hshape, <- app_assoc, attempts_trace_retry. reflexivity.
      * exists O. split; [lia|]. rewrite (loop_fatal _ _ _ _ _ _ _ _ E Hr). reflexivity.
Qed.

(** What the loop raises is what the [try] block of its last request raised,
    wrapped when that was an [HTTPError]. *)
Lemma loop_failure url retries : forall attempts w e w',
  for_attempt_in attempts url retries w = (Raises e, w') ->
  exists e0,
    attempt_result (requests_get url 10 (Nat.pred (http_calls w'))) = Raises e0
    /\ e = surfaced e0.
Proof.
  induction attempts as [|attempt rest IH]; intros w e w' H.
  - cbn in H. unfold ret in H. discriminate.
  - destruct (attempt_result (requests_get url 10 (http_calls w))) as [res0|e0] eqn:E.
    + rewrite (loop_returns _ _ _ _ _ _ _ _ E) in H. discriminate.
    + destruct (retried e0) eqn:Hr.
      * destruct (Z.lt_ge_cases attempt (retries - 1)) as [Hlt|Hge].
        -- rewrite (loop_retry _ _ _ _ _ _ _ _ E Hr Hlt) in H.
           exact (IH _ _ _ H).
        -- rewrite (loop_last _ _ _ _ _ _ _ _ E Hr Hge) in H.
           injection H as <- <-. rewrite http_calls_snoc_get. cbn [Nat.pred].
           exists e0. split; [exact E|].
           unfold surfaced. rewrite (retried_not_HTTPError e0 Hr). reflexivity.
      * rewrite (loop_fatal _ _ _ _ _ _ _ _ E Hr) in H.
        injection H as <- <-. rewrite http_calls_snoc_get. cbn [Nat.pred].
        exists e0. split; [exact E|reflexivity].
Qed.

End Shape.

(** The loop looks at the HTTP client only through what each [try] block
    makes of the outcome of its call. *)
Lemma loop_ext
  (ParseFromString : list byte -> string + FeedMessage.t)
  (requests_get requests_get' : string -> Z -> nat -> http_outcome)
  (url : string) (retries : Z) :
  (forall n, attempt_result ParseFromString (requests_get url 10 n)
             = attempt_result ParseFromString (requests_get' url 10 n)) ->
  forall attempts w,
    for_attempt_in ParseFromString requests_get attempts url retries w
    = for_attempt_in ParseFromString requests_get' attempts url retries w.
Proof.
  intros Hsame. induction attempts as [|attempt rest IH]; intros w; [reflexivity|].
  pose proof (Hsame (http_calls w)) as Hw.
  destruct (attempt_result ParseFromString (requests_get url 10 (http_calls w)))
    as [res|e] eqn:E; symmetry in Hw.
  - rewrite (loop_returns _ _ _ _ _ _ _ _ E), (loop_returns _ _ _ _ _ _ _ _ Hw).
    reflexivity.
  - destruct (retried e) eqn:Hr.
    + destruct (Z.lt_ge_cases attempt (retries - 1)) as [Hlt|Hge].
      * rewrite (loop_retry _ _ _ _ _ _ _ _ E Hr Hlt),
                (loop_retry _ _ _ _ _ _ _ _ Hw Hr Hlt).
        apply IH.
      * rewrite (loop_last _ _ _ _ _ _ _ _ E Hr Hge),
                (loop_last _ _ _ _ _ _ _ _ Hw Hr Hge).
        reflexivity.
    + rewrite (loop_fatal _ _ _ _ _ _ _ _ E Hr), (loop_fatal _ _ _ _ _ _ _ _ Hw Hr).
      reflexivity.
Qed.

(** A valid response after [j] retried failures, with attempts to spare. *)
Lemma loop_succeeds_after
  (ParseFromString : list byte -> string + FeedMessage.t)
  (requests_get : string -> Z -> nat -> http_outcome)
  (url : string) (retries : Z) (res : GTFSRTDataModel.t) :
  forall j a rest w,
    (forall i, (i < j)%nat ->
       exists e,
         attempt_result ParseFromString (requests_get url 10 (http_calls w + i)%nat) = Raises e
         /\ retried e = true) ->
    attempt_result ParseFromString (requests_get url 10 (http_calls w + j)%nat) = Returns res ->
    Z.of_nat (a + j) < retries ->
    for_attempt_in ParseFromString requests_get
      (map Z.of_nat (seq a (S j)) ++ rest) url retries w
    = (Returns (Some res), w ++ attempts_trace url (S j)).
Proof.
  induction j as [|j IH]; intros a rest w Hfail Hok Hlt.
  - rewrite Nat.add_0_r in Hok. cbn [seq map app].
    rewrite (loop_returns _ _ _ _ _ _ _ _ Hok). reflexivity.
  - destruct (Hfail O ltac:(lia)) as (e & He & Hr).
    rewrite Nat.add_0_r in He.
    change (seq a (S (S j))) with (a :: seq (S a) (S j)). cbn [map app].
    rewrite (loop_retry _ _ _ _ _ _ _ _ He Hr) by lia.
    assert (Hc : http_calls (w ++ [EvGet url 10; EvSleep 2]) = S (http_calls w)).
    { rewrite http_calls_app. cbn. lia. }
    rewrite (IH (S a) rest (w ++ [EvGet url 10; EvSleep 2])).
    + rewrite <- app_assoc, attempts_trace_retry. reflexivity.
    + intros i Hi. rewrite Hc.
      replace (S (http_calls w) + i)%nat with (http_calls w + S i)%nat by lia.
      apply Hfail. lia.
    + rewrite Hc.
      replace (S (http_calls w) + j)%nat with (http_calls w + S j)%nat by lia.
      exact Hok.
    + lia.
Qed.

(** ** The retry loop, beyond the statements of the design document *)

Lemma no_attempt_no_request_aux
  (ParseFromString : list byte -> string + FeedMessage.t)
  (requests_get : string -> Z -> nat -> http_outcome)
  (url : string) (retries : Z) :
  retries <= 0 ->
  run ParseFromString requests_get url retries = (Returns None, []).
Proof.
  intros H. unfold_run. rewrite (range_nonpositive retries H). reflexivity.
Qed.

(** X1.  With zero or a negative number of permitted attempts the function
    calls nothing: no request, no sleep, no exception, and the value [None]. *)
Theorem no_attempt_no_request
  (ParseFromString : list byte -> string + FeedMessage.t)
  (requests_get : string -> Z -> nat -> http_outcome)
  (url : string) (retries : Z) :
  retries <= 0 ->
  run ParseFromString requests_get url retries = (Returns None, []).
Proof.
  exact (no_attempt_no_request_aux ParseFromString requests_get url retries).
Qed.

Lemma no_attempt_no_request_witness :
  run Fixtures.ParseFromString
    (Fixtures.always (Fails Fixtures.timeout_error)) Fixtures.url (-2)
  = (Returns None, []).
Proof.
  apply (no_attempt_no_request Fixtures.ParseFromString
           (Fixtures.always (Fails Fixtures.timeout_error)) Fixtures.url (-2)).
  lia.
Defined.

Lemma run_trace_shape
  (ParseFromString : list byte -> string + FeedMessage.t)
  (requests_get : string -> Z -> nat -> http_outcome)
  (url : string) (retries : Z) :
  exists k,
    (k <= Z.to_nat retries)%nat
    /\ (0 < retries -> (1 <= k)%nat)
    /\ snd (run ParseFromString requests_get url retries) = attempts_trace url k.
Proof.
  destruct (Z.le_gt_cases retries 0) as [Hle|Hgt].
  - exists O.
    rewrite (no_attempt_no_request_aux ParseFromString requests_get url retries Hle).
    repeat split; [lia|lia].
  - unfold_run. unfold range.
    destruct (Z.to_nat retries) as [|m] eqn:E; [lia|].
    assert (Hr : retries = Z.of_nat (0 + S m)) by lia.
    destruct (loop_trace_shape ParseFromString requests_get url m 0 [])
      as (j & Hj & Hs).
    rewrite <- Hr in Hs.
    exists (S j). repeat split; [lia|lia|exact Hs].
Qed.

(** X2.  Whatever the client and the decoder do, an invocation issues at
    most [retries] requests, all to the given URL with the ten-second
    timeout; it sleeps exactly once, for two seconds, between two consecutive
    requests and at no other time; and with at least one permitted attempt it
    issues at least one request. *)
Theorem requests_are_bounded
  (ParseFromString : list byte -> string + FeedMessage.t)
  (requests_get : string -> Z -> nat -> http_outcome)
  (url : string) (retries : Z) :
  exists k,
    (k <= Z.to_nat retries)%nat
    /\ (0 < retries -> (1 <= k)%nat)
    /\ snd (run ParseFromString requests_get url retries) = attempts_trace url k
    /\ http_calls (snd (run ParseFromString requests_get url retries)) = k
    /\ sleeps (snd (run ParseFromString requests_get url retries)) = Nat.pred k.
Proof.
  destruct (run_trace_shape ParseFromString requests_get url retries)
    as (k & Hk & Hpos & Hs).
  exists k. rewrite Hs.
  repeat split; [exact Hk|exact Hpos|apply http_calls_attempts_trace
                |apply sleeps_attempts_trace].
Qed.

(** X3.  An [HTTPError] raised by the client ends the invocation at the pass
    that met it, whatever attempts remain: no sleep, no further request, and
    the caller sees a plain [Exception] whose text is "Error fetching GTFS RT
    data: " followed by the text of the original error. *)
Theorem http_error_is_wrapped_and_fatal
  (ParseFromString : list byte -> string + FeedMessage.t)
  (requests_get : string -> Z -> nat -> http_outcome)
  (url : string) (retries : Z) (e : exn)
  (attempt : Z) (rest : list Z) (w : world) :
  exc_type e = HTTPError ->
  requests_get url 10 (http_calls w) = Fails e ->
  for_attempt_in ParseFromString requests_get (attempt :: rest) url retries w
  = (Raises (mk_exn Exception ("Error fetching GTFS RT data: " ++ exc_str e)%string),
     w ++ [EvGet url 10]).
Proof.
  intros Hcls Hget.
  rewrite (loop_fatal ParseFromString requests_get attempt rest url retries w e).
  - unfold surfaced, isinstance. rewrite Hcls. reflexivity.
  - unfold attempt_result. rewrite Hget. reflexivity.
  - unfold retried, isinstance. rewrite Hcls. reflexivity.
Qed.

Lemma http_error_is_wrapped_and_fatal_witness :
  for_attempt_in Fixtures.ParseFromString
    (Scenarios.scripted
       [Fails Fixtures.timeout_error; Fails Fixtures.connection_error;
        Fails Scenarios.http_error]
       (Responds (Fixtures.response 200 [x02])))
    [2] Fixtures.url 3
    [EvGet Fixtures.url 10; EvSleep 2; EvGet Fixtures.url 10; EvSleep 2]
  = (Raises
       (mk_exn Exception
          ("Error fetching GTFS RT data: " ++ exc_str Scenarios.http_error)%string),
     [EvGet Fixtures.url 10; EvSleep 2; EvGet Fixtures.url 10; EvSleep 2;
      EvGet Fixtures.url 10]).
Proof.
  apply (http_error_is_wrapped_and_fatal Fixtures.ParseFromString
           (Scenarios.scripted
              [Fails Fixtures.timeout_error; Fails Fixtures.connection_error;
               Fails Scenarios.http_error]
              (Responds (Fixtures.response 200 [x02])))
           Fixtures.url 3 Scenarios.http_error 2 []
           [EvGet Fixtures.url 10; EvSleep 2; EvGet Fixtures.url 10; EvSleep 2]).
  - reflexivity.
  - reflexivity.
Defined.

(** X4.  A body that the decoder rejects ends the invocation at the pass that
    met it, whatever attempts remain, with a [DecodeError] whose text is
    "Error parsing message: " followed by the decoder's own text. *)
Theorem decode_error_is_fatal
  (ParseFromString : list byte -> string + FeedMessage.t)
  (requests_get : string -> Z -> nat -> http_outcome)
  (url : string) (retries : Z) (r : Response) (msg : string)
  (attempt : Z) (rest : list Z) (w : world) :
  requests_get url 10 (http_calls w) = Responds r ->
  headers_get (headers r) "Content-Type" = Some "application/x-protobuf"%string ->
  content r <> [] ->
  ParseFromString (content r) = inl msg ->
  for_attempt_in ParseFromString requests_get (attempt :: rest) url retries w
  = (Raises (mk_exn DecodeError ("Error parsing message: " ++ msg)%string),
     w ++ [EvGet url 10]).
Proof.
  intros Hget Hct Hbody Hparse.
  apply (loop_fatal ParseFromString requests_get attempt rest url retries w
           (mk_exn DecodeError ("Error parsing message: " ++ msg)%string));
    [|reflexivity].
  unfold attempt_result. rewrite Hget. unfold_process_response.
  rewrite Hct, Hparse.
  destruct (content r); [contradiction|reflexivity].
Qed.

Lemma decode_error_is_fatal_witness :
  run Fixtures.ParseFromString
    (Fixtures.always (Responds (Fixtures.response 200 [x0a; x12; x08])))
    Fixtures.url 3
  = (Raises (mk_exn DecodeError "Error parsing message: Error parsing message"),
     [EvGet Fixtures.url 10]).
Proof.
  apply (decode_error_is_fatal Fixtures.ParseFromString
           (Fixtures.always (Responds (Fixtures.response 200 [x0a; x12; x08])))
           Fixtures.url 3 (Fixtures.response 200 [x0a; x12; x08])
           "Error parsing message" 0 [1; 2] []).
  - reflexivity.
  - reflexivity.
  - discriminate.
  - reflexivity.
Defined.

(** ** The [except] clauses *)

Lemma retried_of_class (e : exn) :
  In (exc_type e) retried_classes -> retried e = true.
Proof.
  destruct e as [c s]. cbn.
  intros [<-|[<-|[<-|[<-|[<-|[]]]]]]; reflexivity.
Qed.

Lemma fatal_of_class (e : exn) :
  In (exc_type e) fatal_classes -> retried e = false /\ surfaced e = e.
Proof.
  destruct e as [c s]. cbn.
  intros [<-|[<-|[<-|[]]]]; split; reflexivity.
Qed.

Lemma fatal_of_HTTPError (e : exn) :
  exc_type e = HTTPError -> retried e = false /\ surfaced e = wrapped_http_error e.
Proof.
  destruct e as [c s]. cbn. intros ->. split; reflexivity.
Qed.

(** X6.  Which clause handles which class.  An [HTTPError] is replaced by
    the wrapped exception; [ValueError], [DecodeError] and [ValidationError]
    are raised again at once; [Exception], [RequestException],
    [ConnectionError], [Timeout] and [InvalidURL] lead to a two-second sleep
    while an attempt remains and are raised again, unchanged, on the last
    attempt.  Every class falls under one of the three cases, and the clauses
    make no request. *)
Theorem except_clauses_by_class (e : exn) (attempt retries : Z) (w : world) :
  (exc_type e = HTTPError ->
   except_clauses e attempt retries w = (Raises (wrapped_http_error e), w))
  /\ (In (exc_type e) fatal_classes ->
      except_clauses e attempt retries w = (Raises e, w))
  /\ (In (exc_type e) retried_classes -> attempt < retries - 1 ->
      except_clauses e attempt retries w = (Returns tt, w ++ [EvSleep 2]))
  /\ (In (exc_type e) retried_classes -> retries - 1 <= attempt ->
      except_clauses e attempt retries w = (Raises e, w))
  /\ (exc_type e = HTTPError
      \/ In (exc_type e) fatal_classes
      \/ In (exc_type e) retried_classes).
Proof.
  repeat split.
  - intros H. destruct (fatal_of_HTTPError e H) as [Hf Hs].
    rewrite (except_clauses_fatal e attempt retries w Hf), Hs. reflexivity.
  - intros H. destruct (fatal_of_class e H) as [Hf Hs].
    rewrite (except_clauses_fatal e attempt retries w Hf), Hs. reflexivity.
  - intros H Hlt.
    exact (except_clauses_retry e attempt retries w (retried_of_class e H) Hlt).
  - intros H Hge.
    exact (except_clauses_last e attempt retries w (retried_of_class e H) Hge).
  - destruct e as [c s]. destruct c; cbn; tauto.
Qed.

(** ** What an invocation raises *)

Lemma process_response_never_raises_HTTPError
  (ParseFromString : list byte -> string + FeedMessage.t)
  (r : Response) (e : exn) :
  process_response ParseFromString r = Raises e ->
  In (exc_type e) [ValueError; Exception; DecodeError; ValidationError].
Proof.
  unfold_process_response.
  destruct (negb (option_string_eqb _ _)); cbn.
  - intros H. injection H as <-. cbn. auto.
  - destruct (is_empty (content r)); cbn.
    + intros H. injection H as <-. cbn. auto.
    + destruct (ParseFromString (content r)) as [msg|feed]; cbn.
      * intros H. injection H as <-. cbn. auto.
      * rewrite extract_unfold. intros H.
        rewrite (process_entities_raises feed _ _ _ H). cbn. auto.
Qed.

(** X7.  When an invocation raises, at least one request was issued and the
    exception comes from the last one: if that call raised an [HTTPError],
    the caller sees its wrapped form; if it raised anything else, the caller
    sees that very exception; and if it returned a response, the caller sees
    what processing that response raised.  The caller never sees an
    [HTTPError]. *)
Theorem raised_error_comes_from_last_attempt
  (ParseFromString : list byte -> string + FeedMessage.t)
  (requests_get : string -> Z -> nat -> http_outcome)
  (url : string) (retries : Z) (e : exn) (w : world) :
  run ParseFromString requests_get url retries = (Raises e, w) ->
  (1 <= http_calls w)%nat
  /\ exc_type e <> HTTPError
  /\ match requests_get url 10 (Nat.pred (http_calls w)) with
     | Fails e0 =>
         e = if isinstance e0 HTTPError then wrapped_http_error e0 else e0
     | Responds r => process_response ParseFromString r = Raises e
     end.
Proof.
  intros Hrun.
  assert (Hcalls : (1 <= http_calls w)%nat).
  { destruct (run_trace_shape ParseFromString requests_get url retries)
      as (k & _ & Hpos & Hs).
    rewrite Hrun in Hs. cbn [snd] in Hs. rewrite Hs, http_calls_attempts_trace.
    apply Hpos. destruct (Z.le_gt_cases retries 0) as [Hle|Hgt]; [|lia].
    rewrite (no_attempt_no_request_aux _ _ _ _ Hle) in Hrun. discriminate. }
  destruct (loop_failure ParseFromString requests_get url retries _ _ _ _ Hrun)
    as (e0 & He0 & ->).
  unfold attempt_result in He0.
  destruct (requests_get url 10 (Nat.pred (http_calls w))) as [r|e1].
  - pose proof (process_response_never_raises_HTTPError _ _ _ He0) as Hcls.
    assert (Hs : surfaced e0 = e0).
    { destruct e0 as [c s]. cbn in Hcls.
      destruct Hcls as [<-|[<-|[<-|[<-|[]]]]]; reflexivity. }
    rewrite Hs. split; [exact Hcalls|split; [|exact He0]].
    destruct e0 as [c s]. cbn in Hcls |- *.
    destruct Hcls as [<-|[<-|[<-|[<-|[]]]]]; discriminate.
  - injection He0 as ->. split; [exact Hcalls|split; [|reflexivity]].
    destruct e0 as [c s]. destruct c; cbn; discriminate.
Qed.

Lemma raised_error_comes_from_last_attempt_witness :
  (1 <= http_calls [EvGet Fixtures.url 10])%nat
  /\ exc_type (wrapped_http_error Scenarios.http_error) <> HTTPError
  /\ wrapped_http_error Scenarios.http_error
     = (if isinstance Scenarios.http_error HTTPError
        then wrapped_http_error Scenarios.http_error
        else Scenarios.http_error).
Proof.
  apply (raised_error_comes_from_last_attempt Fixtures.ParseFromString
           (Fixtures.always (Fails Scenarios.http_error)) Fixtures.url 3
           (wrapped_http_error Scenarios.http_error) [EvGet Fixtures.url 10]).
  reflexivity.
Defined.

(** X13.  The status code of a response plays no part: two clients whose
    outcomes differ at most in the status codes of their responses give the
    same result and the same trace. *)
Theorem status_code_plays_no_part
  (ParseFromString : list byte -> string + FeedMessage.t)
  (requests_get requests_get' : string -> Z -> nat -> http_outcome)
  (url : string) (retries : Z) :
  (forall n, same_but_status (requests_get url 10 n) (requests_get' url 10 n)) ->
  run ParseFromString requests_get url retries
  = run ParseFromString requests_get' url retries.
Proof.
  intros Hsame. unfold_run. apply loop_ext. intros n.
  specialize (Hsame n). unfold attempt_result.
  destruct (requests_get url 10 n) as [r|e], (requests_get' url 10 n) as [r'|e'];
    cbn in Hsame; try contradiction.
  - destruct r as [st h c], r' as [st' h' c']. cbn in Hsame.
    destruct Hsame as [-> ->]. reflexivity.
  - rewrite Hsame. reflexivity.
Qed.

Lemma status_code_plays_no_part_witness :
  run Fixtures.ParseFromString
    (Fixtures.script (Fails Fixtures.timeout_error)
       (Responds (Fixtures.response 503 [x02])) (Responds (Fixtures.response 200 [])))
    Fixtures.url 3
  = run Fixtures.ParseFromString
      (Fixtures.script (Fails Fixtures.timeout_error)
         (Responds (Fixtures.response 200 [x02])) (Responds (Fixtures.response 404 [])))
      Fixtures.url 3.
Proof.
  apply (status_code_plays_no_part Fixtures.ParseFromString).
  intros n. destruct n as [|[|n]]; cbn; auto.
Defined.

(** ** The entity loop, beyond the statements of the design document *)

Lemma process_entity_flags feed result entity result' :
  process_entity feed result entity = Returns result' ->
  GTFSRTDataModel.trip_update result'
  = (if has_trip_update entity then Some [] else GTFSRTDataModel.trip_update result)
  /\ GTFSRTDataModel.alert result'
     = (if has_alert entity then Some [] else GTFSRTDataModel.alert result).
Proof.
  unfold process_entity, has_trip_update, has_alert.
  destruct (HasField (FeedEntity.vehicle entity)).
  - destruct (VehiclePositionModel_validate _); cbn; [|discriminate].
    destruct (HasField (FeedEntity.trip_update entity)),
             (HasField (FeedEntity.alert entity));
      intros H; injection H as <-; split; reflexivity.
  - cbn.
    destruct (HasField (FeedEntity.trip_update entity)),
             (HasField (FeedEntity.alert entity));
      intros H; injection H as <-; split; reflexivity.
Qed.

Lemma process_entities_flags feed : forall entities result result',
  process_entities feed result entities = Returns result' ->
  GTFSRTDataModel.trip_update result'
  = (if existsb has_trip_update entities then Some []
     else GTFSRTDataModel.trip_update result)
  /\ GTFSRTDataModel.alert result'
     = (if existsb has_alert entities then Some []
        else GTFSRTDataModel.alert result).
Proof.
  induction entities as [|entity rest IH]; intros result result' H.
  - cbn in H. injection H as <-. split; reflexivity.
  - cbn [process_entities] in H.
    destruct (process_entity feed result entity) as [r1|x] eqn:E; [|discriminate].
    cbn in H. destruct (IH _ _ H) as [Htu Hal].
    destruct (process_entity_flags feed result entity r1 E) as [Htu1 Hal1].
    cbn [existsb]. rewrite Htu, Hal, Htu1, Hal1.
    destruct (has_trip_update entity), (has_alert entity),
             (existsb has_trip_update rest), (existsb has_alert rest);
      split; reflexivity.
Qed.

(** X8.  The three slots of a returned result tell which kinds of entity the
    feed had: [trip_update] is the empty dictionary when some entity has a
    trip update and [None] otherwise, likewise [alert], and [vehicle] is
    [None] exactly when no entity is vehicle-tagged. *)
Theorem result_slots_reflect_presence
  (ParseFromString : list byte -> string + FeedMessage.t)
  (requests_get : string -> Z -> nat -> http_outcome)
  (url : string) (retries : Z) (res : GTFSRTDataModel.t) (w : world)
  (r : Response) (feed : FeedMessage.t) :
  run ParseFromString requests_get url retries = (Returns (Some res), w) ->
  requests_get url 10 (Nat.pred (http_calls w)) = Responds r ->
  ParseFromString (content r) = inr feed ->
  GTFSRTDataModel.trip_update res
  = (if existsb has_trip_update (FeedMessage.entity feed) then Some [] else None)
  /\ GTFSRTDataModel.alert res
     = (if existsb has_alert (FeedMessage.entity feed) then Some [] else None)
  /\ (GTFSRTDataModel.vehicle res = None <-> vehicle_entities feed = []).
Proof.
  intros Hrun Hget Hparse.
  destruct (run_success_feed _ _ _ _ _ _ Hrun)
    as (r' & feed' & Hget' & _ & _ & Hparse' & Hextract).
  rewrite Hget in Hget'. injection Hget' as <-.
  rewrite Hparse in Hparse'. injection Hparse' as <-.
  destruct (extract_returns feed res Hextract) as (_ & Hnone & Hsome).
  rewrite extract_unfold in Hextract.
  destruct (process_entities_flags feed _ _ _ Hextract) as [Htu Hal].
  split; [exact Htu|split; [exact Hal|]].
  split; [|exact Hnone].
  intros Hv. destruct (vehicle_entities feed) as [|first more] eqn:E; [reflexivity|].
  destruct (Hsome ltac:(discriminate) first) as (validated & _ & Hslot).
  rewrite Hslot in Hv. discriminate.
Qed.

Lemma result_slots_reflect_presence_witness :
  exists res,
    run Scenarios.ParseFromString
      (Fixtures.always (Responds (Fixtures.response 200 [x04]))) Fixtures.url 3
    = (Returns (Some res), [EvGet Fixtures.url 10])
    /\ GTFSRTDataModel.trip_update res = None
    /\ GTFSRTDataModel.alert res = Some []
    /\ (GTFSRTDataModel.vehicle res = None <-> vehicle_entities Scenarios.feed_alerts = []).
Proof.
  eexists. split; [reflexivity|].
  apply (result_slots_reflect_presence Scenarios.ParseFromString
           (Fixtures.always (Responds (Fixtures.response 200 [x04])))
           Fixtures.url 3 _ [EvGet Fixtures.url 10]
           (Fixtures.response 200 [x04]) Scenarios.feed_alerts).
  - reflexivity.
  - reflexivity.
  - reflexivity.
Defined.

(** X9.  A feed without vehicle-tagged entities cannot fail validation: a
    response with the required content type and a non-empty body that decodes
    to such a feed is answered, at the first request, by a result with an
    empty vehicle slot; this holds for the feed without any entity too. *)
Theorem feed_without_vehicles_succeeds
  (ParseFromString : list byte -> string + FeedMessage.t)
  (requests_get : string -> Z -> nat -> http_outcome)
  (url : string) (retries : Z) (r : Response) (feed : FeedMessage.t) :
  0 < retries ->
  requests_get url 10 O = Responds r ->
  headers_get (headers r) "Content-Type" = Some "application/x-protobuf"%string ->
  content r <> [] ->
  ParseFromString (content r) = inr feed ->
  vehicle_entities feed = [] ->
  run ParseFromString requests_get url retries
  = (Returns
       (Some
          {| GTFSRTDataModel.vehicle := None;
             GTFSRTDataModel.trip_update :=
               if existsb has_trip_update (FeedMessage.entity feed)
               then Some [] else None;
             GTFSRTDataModel.alert :=
               if existsb has_alert (FeedMessage.entity feed)
               then Some [] else None |}),
     [EvGet url 10]).
Proof.
  intros Hpos Hget Hct Hbody Hparse Hnone.
  assert (Hvalid : Forall (passes_validation feed) (vehicle_entities feed))
    by (rewrite Hnone; constructor).
  destruct (extract_total feed Hvalid) as (res & Hextract).
  destruct (extract_returns feed res Hextract) as (_ & Hslot & _).
  pose proof Hextract as Hflags. rewrite extract_unfold in Hflags.
  destruct (process_entities_flags feed _ _ _ Hflags) as [Htu Hal].
  cbn [initial_result GTFSRTDataModel.trip_update GTFSRTDataModel.alert] in Htu, Hal.
  rewrite <- Htu, <- Hal, <- (Hslot Hnone).
  replace {| GTFSRTDataModel.vehicle := GTFSRTDataModel.vehicle res;
             GTFSRTDataModel.trip_update := GTFSRTDataModel.trip_update res;
             GTFSRTDataModel.alert := GTFSRTDataModel.alert res |}
    with res by (destruct res; reflexivity).
  apply (run_returns ParseFromString requests_get url retries res Hpos).
  unfold attempt_result. rewrite Hget.
  rewrite (process_response_decoded ParseFromString r feed Hct Hbody Hparse).
  exact Hextract.
Qed.

Lemma feed_without_vehicles_succeeds_witness :
  run Scenarios.ParseFromString
    (Fixtures.always (Responds (Fixtures.response 200 [x04]))) Fixtures.url 3
  = (Returns (Some (GTFSRTDataModel.mk None None (Some []))),
     [EvGet Fixtures.url 10]).
Proof.
  apply (feed_without_vehicles_succeeds Scenarios.ParseFromString
           (Fixtures.always (Responds (Fixtures.response 200 [x04])))
           Fixtures.url 3 (Fixtures.response 200 [x04]) Scenarios.feed_alerts).
  - lia.
  - reflexivity.
  - reflexivity.
  - discriminate.
  - reflexivity.
  - reflexivity.
Defined.

(** ** The mapped record *)

Lemma copied_read {T : Type} (default : T) (wire : option T) :
  copied wire (getattr (read default wire) None).
Proof.
  intros x ->. reflexivity.
Qed.

(** X10.  The validated record of a vehicle entity has the entity's id, and
    every field set on the wire shows with the same value: the scalar fields
    of the vehicle position, and, for each sub-message that is set, the
    fields set in it.  No carriage record survives validation. *)
Theorem populated_fields_are_copied
  (feed : FeedMessage.t) (entity : FeedEntity.t) (v : VehiclePosition.t)
  (validated : VehiclePositionModel.t) :
  FeedEntity.vehicle entity = Some v ->
  VehiclePositionModel_validate (build_vehicle_data feed entity) = Returns validated ->
  VehiclePositionModel.id validated = FeedEntity.id entity
  /\ copied (VehiclePosition.current_stop_sequence v)
       (VehiclePositionModel.current_stop_sequence validated)
  /\ copied (VehiclePosition.stop_id v) (VehiclePositionModel.stop_id validated)
  /\ copied (VehiclePosition.current_status v)
       (VehiclePositionModel.current_status validated)
  /\ copied (VehiclePosition.congestion_level v)
       (VehiclePositionModel.congestion_level validated)
  /\ copied (VehiclePosition.occupancy_status v)
       (VehiclePositionModel.occupancy_status validated)
  /\ copied (VehiclePosition.occupancy_percentage v)
       (VehiclePositionModel.occupancy_percentage validated)
  /\ (forall t, VehiclePosition.trip v = Some t ->
      exists m,
        VehiclePositionModel.trip validated = Some m
        /\ copied (TripDescriptor.trip_id t) (TripModel.trip_id m)
        /\ copied (TripDescriptor.route_id t) (TripModel.route_id m)
        /\ copied (TripDescriptor.direction_id t) (TripModel.direction_id m)
        /\ copied (TripDescriptor.start_time t) (TripModel.start_time m)
        /\ copied (TripDescriptor.start_date t) (TripModel.start_date m)
        /\ copied (TripDescriptor.schedule_relationship t)
             (TripModel.schedule_relationship m))
  /\ (forall d, VehiclePosition.vehicle v = Some d ->
      exists m,
        VehiclePositionModel.vehicle validated = Some m
        /\ copied (VehicleDescriptor.id d) (VehicleInfoModel.id m)
        /\ copied (VehicleDescriptor.label d) (VehicleInfoModel.label m)
        /\ copied (VehicleDescriptor.license_plate d) (VehicleInfoModel.license_plate m))
  /\ (forall p, VehiclePosition.position v = Some p ->
      exists m,
        VehiclePositionModel.position validated = Some m
        /\ copied (Position.latitude p) (PositionModel.latitude m)
        /\ copied (Position.longitude p) (PositionModel.longitude m)
        /\ copied (Position.bearing p) (PositionModel.bearing m)
        /\ copied (Position.odometer p) (PositionModel.odometer m)
        /\ copied (Position.speed p) (PositionModel.speed m))
  /\ VehiclePositionModel.multi_carriage_details validated = Some [].
Proof.
  intros Hv. unfold VehiclePositionModel_validate, build_vehicle_data.
  rewrite Hv. cbn [read vehicle_data.multi_carriage_details].
  destruct (VehiclePosition.multi_carriage_details v) as [|item items] eqn:Hmcd;
    cbn; [|discriminate].
  intros H. injection H as <-. cbn.
  repeat match goal with |- _ /\ _ => split end;
    try reflexivity; try apply copied_read.
  - intros t Ht. unfold read_trip. rewrite Ht. eexists. split; [reflexivity|].
    cbn. repeat split; apply copied_read.
  - intros d Hd. unfold read_vehicle. rewrite Hd. eexists. split; [reflexivity|].
    cbn. repeat split; apply copied_read.
  - intros p Hp. unfold read_position. rewrite Hp. eexists. split; [reflexivity|].
    cbn. repeat split; apply copied_read.
Qed.

Lemma populated_fields_are_copied_witness :
  exists validated,
    VehiclePositionModel_validate
      (build_vehicle_data Fixtures.feed_two (Fixtures.bus "2" "S2" 22))
    = Returns validated
    /\ VehiclePositionModel.id validated = "2"%string
    /\ VehiclePositionModel.stop_id validated = Some "S2"%string
    /\ VehiclePositionModel.current_stop_sequence validated = Some 4.
Proof.
  eexists. split; [reflexivity|].
  destruct (populated_fields_are_copied Fixtures.feed_two (Fixtures.bus "2" "S2" 22)
              _ _ eq_refl eq_refl) as (Hid & Hseq & Hstop & _).
  split; [exact Hid|split].
  - exact (Hstop _ eq_refl).
  - exact (Hseq _ eq_refl).
Defined.

(** ** What the entity loop does not look at *)

Lemma build_header_only feed feed' entity :
  FeedMessage.header feed' = FeedMessage.header feed ->
  build_vehicle_data feed' entity = build_vehicle_data feed entity.
Proof.
  intros H. unfold build_vehicle_data. rewrite H. reflexivity.
Qed.

Lemma process_entities_header_only feed feed' :
  FeedMessage.header feed' = FeedMessage.header feed ->
  forall entities result,
    process_entities feed' result entities = process_entities feed result entities.
Proof.
  intros H. induction entities as [|entity rest IH]; intros result; [reflexivity|].
  cbn [process_entities].
  assert (Hpe : process_entity feed' result entity = process_entity feed result entity).
  { unfold process_entity. rewrite (build_header_only feed feed' entity H).
    reflexivity. }
  rewrite Hpe.
  destruct (process_entity feed result entity); cbn; [apply IH|reflexivity].
Qed.

Lemma process_entity_skips_bare feed result entity :
  has_payload entity = false ->
  process_entity feed result entity = Returns result.
Proof.
  unfold has_payload, has_vehicle, has_trip_update, has_alert, process_entity.
  destruct (HasField (FeedEntity.vehicle entity)); [discriminate|].
  destruct (HasField (FeedEntity.trip_update entity)); [discriminate|].
  destruct (HasField (FeedEntity.alert entity)); [discriminate|].
  reflexivity.
Qed.

(** X12.  The [is_deleted] flag of an entity plays no part: whatever the
    flags are set to, the feed gives the same result or the same error; a
    vehicle entity flagged as deleted is mapped, validated and stored like
    any other. *)
Theorem is_deleted_plays_no_part
  (feed : FeedMessage.t) (flag : FeedEntity.t -> option bool) :
  extract
    (with_entities feed
       (map (fun entity => with_is_deleted entity (flag entity))
          (FeedMessage.entity feed)))
  = extract feed.
Proof.
  rewrite !extract_unfold.
  rewrite (process_entities_header_only feed (with_entities feed _) eq_refl).
  cbn [with_entities FeedMessage.entity].
  generalize initial_result.
  induction (FeedMessage.entity feed) as [|entity rest IH]; intros result;
    [reflexivity|].
  cbn [map process_entities].
  replace (process_entity feed result (with_is_deleted entity (flag entity)))
    with (process_entity feed result entity) by reflexivity.
  destruct (process_entity feed result entity); cbn; [apply IH|reflexivity].
Qed.

(** X14.  An entity with none of the three payloads set is passed over
    without a trace: dropping such entities from the feed changes neither the
    result nor the error. *)
Theorem bare_entities_are_skipped (feed : FeedMessage.t) :
  extract (with_entities feed (filter has_payload (FeedMessage.entity feed)))
  = extract feed.
Proof.
  rewrite !extract_unfold.
  rewrite (process_entities_header_only feed (with_entities feed _) eq_refl).
  cbn [with_entities FeedMessage.entity].
  generalize initial_result.
  induction (FeedMessage.entity feed) as [|entity rest IH]; intros result;
    [reflexivity|].
  cbn [filter]. destruct (has_payload entity) eqn:Hp.
  - cbn [process_entities].
    destruct (process_entity feed result entity); cbn; [apply IH|reflexivity].
  - cbn [process_entities].
    rewrite (process_entity_skips_bare feed result entity Hp). cbn. apply IH.
Qed.

(** ** The entity loop against its closed form *)

Lemma validate_returns_record (d : vehicle_data.t) (validated : VehiclePositionModel.t) :
  VehiclePositionModel_validate d = Returns validated ->
  validated = validated_record_of d.
Proof.
  unfold VehiclePositionModel_validate, validated_record_of.
  destruct (vehicle_data.multi_carriage_details d) as [|item items]; cbn.
  - intros H. injection H as <-. reflexivity.
  - discriminate.
Qed.


(** On a feed whose vehicle entities all pass validation, the loop returns
    the closed form. *)
Lemma extract_valid_feed (feed : FeedMessage.t) :
  Forall (passes_validation feed) (vehicle_entities feed) ->
  extract feed = Returns (valid_feed_result feed).
Proof.
  intros Hvalid.
  destruct (extract_total feed Hvalid) as (res & Hextract).
  rewrite Hextract. f_equal.
  destruct (extract_returns feed res Hextract) as (_ & Hnone & Hsome).
  rewrite extract_unfold in Hextract.
  destruct (process_entities_flags feed _ _ _ Hextract) as [Htu Hal].
  cbn [initial_result GTFSRTDataModel.trip_update GTFSRTDataModel.alert] in Htu, Hal.
  unfold valid_feed_result, last_vehicle_entity.
  destruct res as [slot tu al]. cbn in Htu, Hal, Hnone, Hsome. subst tu al.
  f_equal.
  destruct (vehicle_entities feed) as [|first more] eqn:Hents.
  - exact (Hnone eq_refl).
  - destruct (Hsome ltac:(discriminate) first) as (validated & Hval & ->).
    cbn [option_map]. f_equal. exact (validate_returns_record _ _ Hval).
Qed.



(** X5.  For any number [k] of failed attempts that leaves one to spare:
    when the first [k] calls raise network errors and the next returns a
    response with the required content type and a non-empty body that decodes
    to a feed whose vehicle entities all pass validation, the invocation
    returns, after exactly [k + 1] requests and [k] sleeps, the result of that
    feed: the record of its last vehicle entity in the vehicle slot, and the
    other two slots telling whether it has trip updates and alerts. *)
Theorem success_after_retried_failures
  (ParseFromString : list byte -> string + FeedMessage.t)
  (requests_get : string -> Z -> nat -> http_outcome)
  (url : string) (retries : Z) (k : nat) (r : Response) (feed : FeedMessage.t) :
  Z.of_nat k < retries ->
  (forall i, (i < k)%nat ->
     exists e, requests_get url 10 i = Fails e /\ is_network_error e = true) ->
  requests_get url 10 k = Responds r ->
  headers_get (headers r) "Content-Type" = Some "application/x-protobuf"%string ->
  content r <> [] ->
  ParseFromString (content r) = inr feed ->
  Forall (passes_validation feed) (vehicle_entities feed) ->
  run ParseFromString requests_get url retries
  = (Returns
       (Some
          {| GTFSRTDataModel.vehicle :=
               option_map
                 (fun entity => validated_record_of (build_vehicle_data feed entity))
                 (last_vehicle_entity feed);
             GTFSRTDataModel.trip_update :=
               if existsb has_trip_update (FeedMessage.entity feed)
               then Some [] else None;
             GTFSRTDataModel.alert :=
               if existsb has_alert (FeedMessage.entity feed)
               then Some [] else None |}),
     attempts_trace url (S k))
  /\ http_calls (attempts_trace url (S k)) = S k
  /\ sleeps (attempts_trace url (S k)) = k.
Proof.
  intros Hlt Hfail Hget Hct Hbody Hparse Hvalid.
  pose proof (extract_valid_feed feed Hvalid) as Hextract.
  split; [|split; [apply http_calls_attempts_trace|apply sleeps_attempts_trace]].
  unfold_run. unfold range.
  replace (Z.to_nat retries) with (S k + (Z.to_nat retries - S k))%nat by lia.
  rewrite seq_app, map_app.
  apply (loop_succeeds_after ParseFromString requests_get url retries
           (valid_feed_result feed) k 0 _ []).
  - intros i Hi. destruct (Hfail i Hi) as (e & He & Hnet).
    exists e. change (http_calls [] + i)%nat with i. unfold attempt_result.
    rewrite He. split; [reflexivity|exact (retried_network e Hnet)].
  - change (http_calls [] + k)%nat with k. unfold attempt_result. rewrite Hget.
    rewrite (process_response_decoded ParseFromString r feed Hct Hbody Hparse).
    exact Hextract.
  - lia.
Qed.

Lemma success_after_retried_failures_witness :
  run Scenarios.ParseFromString
    (Scenarios.scripted
       [Fails Fixtures.timeout_error; Fails Fixtures.connection_error;
        Fails Fixtures.invalid_url_error]
       (Responds (Fixtures.response 200 [x05])))
    Fixtures.url 5
  = (Returns
       (Some
          (GTFSRTDataModel.mk
             (Some
                (VehiclePositionModel.mk "c2"
                   (Some (TripModel.mk (Some ""%string) (Some ""%string) (Some 0)
                            (Some ""%string) (Some ""%string) (Some 0)))
                   (Some (VehicleInfoModel.mk (Some ""%string) (Some ""%string)
                            (Some ""%string)))
                   (Some (PositionModel.mk (Some PrimFloat.zero) (Some PrimFloat.zero)
                            (Some PrimFloat.zero) (Some PrimFloat.zero)
                            (Some PrimFloat.zero)))
                   (Some 0) (Some "S7"%string) (Some 2) (Some 1700000000)
                   (Some 0) (Some 0) (Some 0) (Some [])))
             (Some []) (Some []))),
     [EvGet Fixtures.url 10; EvSleep 2; EvGet Fixtures.url 10; EvSleep 2;
      EvGet Fixtures.url 10; EvSleep 2; EvGet Fixtures.url 10]).
Proof.
  refine (proj1 (success_after_retried_failures Scenarios.ParseFromString
                   (Scenarios.scripted
                      [Fails Fixtures.timeout_error; Fails Fixtures.connection_error;
                       Fails Fixtures.invalid_url_error]
                      (Responds (Fixtures.response 200 [x05])))
                   Fixtures.url 5 3 (Fixtures.response 200 [x05])
                   Scenarios.feed_crowded _ _ _ _ _ _ _)).
  - lia.
  - intros i Hi.
    destruct i as [|[|[|i]]]; [eexists; split; reflexivity ..|lia].
  - reflexivity.
  - reflexivity.
  - discriminate.
  - reflexivity.
  - repeat constructor; eexists; reflexivity.
Defined.
